(** * http_parser.c: an HTTP/1.x head and body tokenizer

    A shallow embedding of [src/http_parser.c] and the properties of it
    that the design document states.

    Conventions of the embedding.
    - Bytes are [ascii]; a run of bytes is a [list ascii].
    - The input of every function lives in one memory object [m] (a list of
      bytes); a [char*] into it is an offset, [NULL] is [None].  Reading a C
      string takes the bytes up to the first NUL; a read outside the object
      (before its first byte, or a scan that meets no NUL) is undefined
      behaviour and is reported as a [Fault].
    - The strings the parser returns are fresh [malloc] copies: an output
      slot [char**] is an [option bytes] ([None] is [NULL]).  [malloc] is
      taken to succeed.
    - [int] is 32 bits wide, [unsigned] likewise.  Lengths of strings that
      are held in memory are taken to fit in [int]; the [unsigned]
      arithmetic of [parse_body_head], which mixes them with the
      caller-supplied [n], is written out with its wrap-around. *)

From Stdlib Require Import String Ascii List ZArith Bool Lia.
Import ListNotations.

Local Open Scope Z_scope.

(** ** Bytes and literals *)

Definition bytes := list ascii.

Definition str (s : string) : bytes := list_ascii_of_string s.

Definition NUL : ascii := Ascii.ascii_of_nat 0.
Definition CR : ascii := Ascii.ascii_of_nat 13.
Definition LF : ascii := Ascii.ascii_of_nat 10.
Definition CRLF : bytes := [CR; LF].
Definition CRLFCRLF : bytes := CRLF ++ CRLF.
Definition SP : bytes := str " ".

Definition bytes_eqb (a b : bytes) : bool :=
  if list_eq_dec ascii_dec a b then true else false.

(** ** Machine integers *)

Definition INT_MAX : Z := 2147483647.
Definition is_int (x : Z) : Prop := - INT_MAX - 1 <= x <= INT_MAX.
Definition to_uint (x : Z) : Z := x mod 2 ^ 32.
Definition to_int (x : Z) : Z := (x + 2 ^ 31) mod 2 ^ 32 - 2 ^ 31.
Definition LONG_MAX : Z := 9223372036854775807.
Definition clamp_long (x : Z) : Z := Z.max (- LONG_MAX - 1) (Z.min LONG_MAX x).

(** ** Results: a value, or undefined behaviour *)

Inductive fault : Type :=
| OutOfBounds   (* a read or write outside the object *)
| NullDeref     (* NULL used where an object is required *)
| UninitRead.   (* a read of an uninitialised local *)

Inductive result (A : Type) : Type :=
| Ok (a : A)
| Fault (f : fault).
Arguments Ok {A} a.
Arguments Fault {A} f.

Definition bind {A B} (r : result A) (k : A -> result B) : result B :=
  match r with
  | Ok a => k a
  | Fault f => Fault f
  end.

Notation "x <- e ;; k" := (bind e (fun x => k))
  (at level 61, e at next level, right associativity).
Notation "' p <- e ;; k" := (bind e (fun p => k))
  (at level 61, p pattern, e at next level, right associativity).

(** ** The C library on byte lists *)

(** [starts_with d s]: [d] is a prefix of [s]. *)
Fixpoint starts_with (d s : bytes) : bool :=
  match d, s with
  | [], _ => true
  | a :: d', b :: s' => Ascii.eqb a b && starts_with d' s'
  | _ :: _, [] => false
  end.

(** [strstr s d]: the offset of the first occurrence of [d] in the C string
    [s], [None] for the NULL result.  An empty needle is found at 0. *)
Fixpoint strstr (s d : bytes) : option nat :=
  if starts_with d s then Some 0%nat
  else match s with
       | [] => None
       | _ :: s' => option_map S (strstr s' d)
       end.

(** The bytes before the first NUL; [None] when there is none. *)
Fixpoint until_nul (l : bytes) : option bytes :=
  match l with
  | [] => None
  | c :: l' => if Ascii.eqb c NUL then Some []
               else option_map (cons c) (until_nul l')
  end.

(** [atoi]: white space, an optional sign, then the leading run of decimal
    digits ([strtol] in base 10, saturating at [long], cut down to [int]). *)
Definition isspace (c : ascii) : bool :=
  let n := nat_of_ascii c in
  (n =? 32)%nat || ((9 <=? n)%nat && (n <=? 13)%nat).

Definition isdigit (c : ascii) : bool :=
  let n := nat_of_ascii c in (48 <=? n)%nat && (n <=? 57)%nat.

Fixpoint skip_space (l : bytes) : bytes :=
  match l with
  | c :: l' => if isspace c then skip_space l' else l
  | [] => []
  end.

Fixpoint digit_run (acc : Z) (l : bytes) : Z :=
  match l with
  | c :: l' => if isdigit c
               then digit_run (acc * 10 + (Z.of_nat (nat_of_ascii c) - 48)) l'
               else acc
  | [] => acc
  end.

Definition strtol10 (l : bytes) : Z :=
  match skip_space l with
  | c :: l' =>
      if Ascii.eqb c "-" then clamp_long (- digit_run 0 l')
      else if Ascii.eqb c "+" then clamp_long (digit_run 0 l')
      else clamp_long (digit_run 0 (c :: l'))
  | [] => 0
  end.

Definition atoi (nptr : bytes) : Z := to_int (strtol10 nptr).

(** A token that does not start a number: after white space and one
    optional sign no digit follows. *)
Definition numeric_start (l : bytes) : bool :=
  match skip_space l with
  | c :: l' =>
      if Ascii.eqb c "-" || Ascii.eqb c "+"
      then match l' with d :: _ => isdigit d | [] => false end
      else isdigit c
  | [] => false
  end.

(** ** Memory *)

Definition mem := bytes.
Definition ptr := option Z.

Section Parser.

Variable m : mem.

(** The C string at offset [p]. *)
Definition load_cstr (p : Z) : result bytes :=
  if p <? 0 then Fault OutOfBounds
  else match until_nul (skipn (Z.to_nat p) m) with
       | Some s => Ok s
       | None => Fault OutOfBounds
       end.

(** [len] raw bytes at offset [p] (the source of a [memcpy]). *)
Definition load_bytes (p len : Z) : result bytes :=
  if (p <? 0) || (len <? 0) || (Z.of_nat (length m) <? p + len)
  then Fault OutOfBounds
  else Ok (firstn (Z.to_nat len) (skipn (Z.to_nat p) m)).

(** [malloc (size + 1)] followed by [memcpy] of [size] bytes from offset
    [p]: the copy; [size + 1] is computed in [unsigned]. *)
Definition malloc_copy (p size : Z) : result bytes :=
  if to_uint (size + 1) <? size + 1 then Fault OutOfBounds
  else load_bytes p size.

Definition strlen (p : ptr) : result Z :=
  match p with
  | None => Fault NullDeref
  | Some p => s <- load_cstr p ;; Ok (Z.of_nat (length s))
  end.

(** ** get_prefix

    The C function returns the cursor and stores the copy of the prefix in
    [*out_prefix].  Here both come back together: [None] is the NULL
    return, on which [*out_prefix] is not written; [Some (end_, prefix)] is
    the cursor right after the delimiter with the string stored. *)
Definition get_prefix (str_ : ptr) (delim : bytes)
  : result (option (Z * bytes)) :=
  match str_ with
  | None => Ok None
  | Some p =>
      s <- load_cstr p ;;
      match strstr s delim with
      | None => Ok None
      | Some k =>
          let end_ := p + Z.of_nat k in
          let len := end_ - p in
          let prefix := firstn (Z.to_nat len) s in
          Ok (Some (end_ + Z.of_nat (length delim), prefix))
      end
  end.

(** What an output slot holds after a call of [get_prefix] on it. *)
Definition stored (r : option (Z * bytes)) (old : option bytes)
  : option bytes :=
  match r with
  | Some (_, prefix) => Some prefix
  | None => old
  end.

Definition cursor (r : option (Z * bytes)) : ptr :=
  match r with
  | Some (e, _) => Some e
  | None => None
  end.

(** ** Line parsers *)

Record request_line : Type := mk_request_line
  { method : option bytes; url : option bytes; version : option bytes }.

(** Returns the [int] result with the three output slots. *)
Definition parse_request_line (line : ptr) (o : request_line)
  : result (Z * request_line) :=
  (* Extract method field. *)
  r <- get_prefix line SP ;;
  let o := mk_request_line (stored r (method o)) (url o) (version o) in
  match cursor r with
  | None => Ok (-1, o)
  | Some st =>
      (* Extract url field. *)
      r <- get_prefix (Some st) SP ;;
      let o := mk_request_line (method o) (stored r (url o)) (version o) in
      match cursor r with
      | None => Ok (-1, o)
      | Some st =>
          (* Extract version field. *)
          r <- get_prefix (Some st) CRLF ;;
          let o := mk_request_line (method o) (url o) (stored r (version o)) in
          match cursor r, line with
          | Some st, Some line => Ok (st - line, o)
          | _, _ => Ok (-1, o)
          end
      end
  end.

(** Returns the [int] result with the slots [name] and [value]. *)
Definition parse_header_line (line : ptr) (name value : option bytes)
  : result (Z * option bytes * option bytes) :=
  (* Extract field name. *)
  r <- get_prefix line (str ": ") ;;
  let name := stored r name in
  match cursor r with
  | None => Ok (-1, name, value)
  | Some st =>
      (* Extract field value. *)
      r <- get_prefix (Some st) CRLF ;;
      let value := stored r value in
      match cursor r, line with
      | Some st, Some line => Ok (st - line, name, value)
      | _, _ => Ok (-1, name, value)
      end
  end.

Record status_line : Type := mk_status_line
  { s_version : option bytes; status_code : Z; phrase : option bytes }.

(** The tests are on the output slots, not on the returned cursor, and the
    local [status_code] is not initialised: when the second delimiter is
    missing it is read without having been written. *)
Definition parse_status_line (line : ptr) (o : status_line)
  : result (Z * status_line) :=
  (* Extract version field. *)
  r <- get_prefix line SP ;;
  let st := cursor r in
  let o := mk_status_line (stored r (s_version o)) (status_code o) (phrase o) in
  match s_version o with
  | None => Ok (-1, o)
  | Some _ =>
      (* Extract status code field. *)
      r <- get_prefix st SP ;;
      let st := cursor r in
      match r with
      | None => Fault UninitRead
      | Some (_, code) =>
          let o := mk_status_line (s_version o) (atoi code) (phrase o) in
          (* Extract phrase field. *)
          r <- get_prefix st CRLF ;;
          let st := cursor r in
          let o :=
            mk_status_line (s_version o) (status_code o)
                           (stored r (phrase o)) in
          match phrase o with
          | None => Ok (-1, o)
          | Some _ =>
              match st, line with
              | Some st, Some line => Ok (st - line, o)
              | _, _ => Fault NullDeref
              end
          end
      end
  end.

(** ** Head and body *)

Record body_head : Type := mk_body_head
  { out_head : option bytes; out_head_len : Z;
    out_body : option bytes; out_body_len : Z }.

(** A fault after the head has been stored loses the stores made so far:
    the behaviour is undefined from there on. *)
Definition parse_body_head (buf : ptr) (n : Z) (o : body_head)
  : result body_head :=
  match buf with
  | None => Ok o
  | Some buf =>
      (* Find the empty line between head and body. *)
      s <- load_cstr buf ;;
      match strstr s CRLFCRLF with
      | None => Ok o
      | Some k =>
          let pos := buf + Z.of_nat k in
          (* Copy the head without the empty line. *)
          let pos := pos + Z.of_nat (length CRLF) in
          let size := to_uint (pos - buf) in
          head <- malloc_copy buf size ;;
          let o :=
            mk_body_head (Some head) (to_int size)
                         (out_body o) (out_body_len o) in
          (* Skip the empty line. *)
          let pos := pos + Z.of_nat (length CRLF) in
          (* Copy the body. *)
          let size := to_uint (n - size - Z.of_nat (length CRLF)) in
          body <- malloc_copy pos size ;;
          Ok (mk_body_head (out_head o) (out_head_len o)
                           (Some body) (to_int size))
      end
  end.

(** ** Head assemblers *)

Record request_head : Type := mk_request_head
  { req_line : request_line; host : option bytes }.

Definition is_name (name : option bytes) (field : string) : bool :=
  match name with
  | Some nm => bytes_eqb nm (str field)
  | None => false
  end.

(** The [while] loop of [parse_request_head]; [None] when [fuel]
    iterations do not reach its exit. *)
Fixpoint request_headers (fuel : nat) (end_ st : Z)
    (name value out_host : option bytes) : option (result (option bytes)) :=
  match fuel with
  | O => None
  | S fuel =>
      if st <? end_ then
        match parse_header_line (Some st) name value with
        | Fault f => Some (Fault f)
        | Ok (len, name, value) =>
            let out_host := if is_name name "Host" then value else out_host in
            request_headers fuel end_ (st + len) None None out_host
        end
      else Some (Ok out_host)
  end.

Definition parse_request_head (fuel : nat) (request : ptr) (o : request_head)
  : option (result request_head) :=
  match request, strlen request with
  | Some st, Ok n =>
      let end_ := st + n in
      (* Parse request line. *)
      match parse_request_line request (req_line o) with
      | Fault f => Some (Fault f)
      | Ok (len, rl) =>
          (* Parse each header line. *)
          match request_headers fuel end_ (st + len) None None (host o) with
          | Some (Ok h) => Some (Ok (mk_request_head rl h))
          | Some (Fault f) => Some (Fault f)
          | None => None
          end
      end
  | _, Fault f => Some (Fault f)
  | None, _ => Some (Fault NullDeref)
  end.

Record host_field : Type := mk_host_field
  { hostname : option bytes; port : Z }.

Definition parse_host_field (host_ : ptr) (o : host_field)
  : result host_field :=
  r <- get_prefix host_ (str ":") ;;
  let o := mk_host_field (stored r (hostname o)) (port o) in
  match cursor r, host_ with
  | Some st, Some h =>
      n <- strlen host_ ;;
      (* Convert the substring after the first ":" to the port number. *)
      if st <? h + n
      then s <- load_cstr st ;; Ok (mk_host_field (hostname o) (atoi s))
      else Ok o
  | _, Some h =>
      (* No ":" is found. *)
      s <- load_cstr h ;; Ok (mk_host_field (Some s) (port o))
  | _, None => Fault NullDeref
  end.

Record response_head : Type := mk_response_head
  { st_line : status_line; content_length : Z;
    cache_control : option bytes }.

(** The [while] loop of [parse_response_head]. *)
Fixpoint response_headers (fuel : nat) (end_ st : Z)
    (name value : option bytes) (out_content_length : Z)
    (out_cache_control : option bytes)
  : option (result (Z * option bytes)) :=
  match fuel with
  | O => None
  | S fuel =>
      if st <? end_ then
        match parse_header_line (Some st) name value with
        | Fault f => Some (Fault f)
        | Ok (len, name, value) =>
            if is_name name "Content-Length" then
              match value with
              | None => Some (Fault NullDeref)
              | Some v =>
                  response_headers fuel end_ (st + len) None None
                                   (atoi v) out_cache_control
              end
            else if is_name name "Cache-Control" then
              response_headers fuel end_ (st + len) None None
                               out_content_length value
            else
              response_headers fuel end_ (st + len) None None
                               out_content_length out_cache_control
        end
      else Some (Ok (out_content_length, out_cache_control))
  end.

Definition parse_response_head (fuel : nat) (response : ptr)
    (o : response_head) : option (result response_head) :=
  match response, strlen response with
  | Some st, Ok n =>
      let end_ := st + n in
      (* Parse status line. *)
      match parse_status_line response (st_line o) with
      | Fault f => Some (Fault f)
      | Ok (len, sl) =>
          (* Parse each header line. *)
          match response_headers fuel end_ (st + len) None None
                                 (content_length o) (cache_control o) with
          | Some (Ok (cl, cc)) => Some (Ok (mk_response_head sl cl cc))
          | Some (Fault f) => Some (Fault f)
          | None => None
          end
      end
  | _, Fault f => Some (Fault f)
  | None, _ => Some (Fault NullDeref)
  end.

(** ** parse_cache_control: the integer after ["max-age="]; the slot
    [*out_max_age] comes back. *)
Definition MAX_AGE : bytes := str "max-age=".

Definition parse_cache_control (cache_control : ptr) (out_max_age : Z)
  : result Z :=
  match cache_control with
  | None => Ok out_max_age
  | Some cc =>
      s <- load_cstr cc ;;
      match strstr s MAX_AGE with
      | None => Ok out_max_age
      | Some k =>
          let pos := cc + Z.of_nat k in
          (* End of "max-age=". *)
          let pos := pos + Z.of_nat (length MAX_AGE) in
          n <- strlen cache_control ;;
          (* Empty after "max-age=". *)
          if cc + n <=? pos then Ok out_max_age
          else t <- load_cstr pos ;; Ok (atoi t)
      end
  end.

End Parser.

(** ** Occurrences of a delimiter *)

(** [d] occurs in [s] at offset [k]. *)
Definition occurs_at (d s : bytes) (k : nat) : Prop :=
  firstn (length d) (skipn k s) = d.

(** [d] does not occur in [s]. *)
Definition absent (d s : bytes) : Prop :=
  forall a b, s <> a ++ d ++ b.

(** [s] is [pre], then its first occurrence of [d], then [post]. *)
Definition first_split (d s pre post : bytes) : Prop :=
  s = pre ++ d ++ post /\
  forall j, (j < length pre)%nat -> ~ occurs_at d s j.

(** A memory object that holds the C string [s] and nothing else. *)
Definition cstring (s : bytes) : mem := s ++ [NUL].

(** The [n] bytes at offset [p]: the buffer that the caller declares. *)
Definition buffer (m : mem) (p n : Z) : bytes :=
  firstn (Z.to_nat n) (skipn (Z.to_nat p) m).

(** ** Inputs used below *)

(** A request and a response whose last header line has no [": "]. *)
Definition request_bad_header : bytes :=
  str "GET / HTTP/1.1" ++ CRLF ++ str "A: b" ++ CRLF ++ str "bad" ++ CRLF.
Definition response_bad_header : bytes :=
  str "HTTP/1.1 200 OK" ++ CRLF ++ str "A: b" ++ CRLF ++ str "bad" ++ CRLF.

(** A head whose first line has no [" "]. *)
Definition head_bad_first_line : bytes := str "bad" ++ CRLF.

(** A string with an invalid first line that is preceded in its object by
    one byte; the string starts at offset 1. *)
Definition object_H_ost : mem := str "H" ++ cstring (str "ost: a.com" ++ CRLF).

(** Three received bytes followed by what an earlier use of the object
    left there, and the same three bytes followed by the terminator. *)
Definition object_stale_tail : mem := str "a" ++ CRLF ++ CRLF ++ [NUL].
Definition object_clean_tail : mem := str "a" ++ CRLF ++ [NUL].
(** Three bytes and no terminator. *)
Definition object_unterminated : mem := str "abc".

(** A seven-byte buffer with a NUL byte before its blank line. *)
Definition object_nul_in_head : mem :=
  str "a" ++ [NUL] ++ CRLFCRLF ++ str "b" ++ [NUL].

Definition request_x : bytes :=
  str "GET /x HTTP/1.1" ++ CRLF ++ str "Host: a.com" ++ CRLF.
Definition message_x : bytes := request_x ++ CRLF ++ str "body".

(** A malformed line followed by a Host header. *)
Definition bad_then_host : bytes :=
  str "bad" ++ CRLF ++ str "Host: a.com" ++ CRLF.

(** A request line with no version, followed by a Host header. *)
Definition request_no_version : bytes :=
  str "GET /x" ++ CRLF ++ str "Host: a.com" ++ CRLF.

(** A status line with a status code that is not a number. *)
Definition status_abc : bytes := str "HTTP/1.1 abc Not Found" ++ CRLF.

Definition no_body_head : body_head := mk_body_head None 0 None 0.
Definition no_request_line : request_line := mk_request_line None None None.
Definition no_request_head : request_head :=
  mk_request_head no_request_line None.
Definition no_status_line : status_line := mk_status_line None 0 None.
Definition no_response_head : response_head :=
  mk_response_head no_status_line 0 None.

(** ** Heads as text *)

(** [t] is a token for the delimiter [d]: in [t] followed by [d] no
    occurrence of [d] starts inside [t]. *)
Definition token (d t : bytes) : Prop :=
  forall j, (j < length t)%nat -> ~ occurs_at d (t ++ d) j.

Definition request_line_text (me u v : bytes) : bytes :=
  me ++ SP ++ u ++ SP ++ v ++ CRLF.

Definition status_line_text (v c ph : bytes) : bytes :=
  v ++ SP ++ c ++ SP ++ ph ++ CRLF.

(** A header is a name with a value. *)
Definition header_line (h : bytes * bytes) : bytes :=
  fst h ++ str ": " ++ snd h ++ CRLF.

Fixpoint header_lines (hs : list (bytes * bytes)) : bytes :=
  match hs with
  | [] => []
  | h :: hs => header_line h ++ header_lines hs
  end.

Definition wf_header (h : bytes * bytes) : Prop :=
  token (str ": ") (fst h) /\ token CRLF (snd h).

(** What the body of the request loop does with one parsed header. *)
Definition fold_host (out_host : option bytes) (h : bytes * bytes)
  : option bytes :=
  if bytes_eqb (fst h) (str "Host") then Some (snd h) else out_host.

(** What the body of the response loop does with one parsed header: the
    slots are [*out_content_length] and [*out_cache_control]. *)
Definition fold_response (acc : Z * option bytes) (h : bytes * bytes)
  : Z * option bytes :=
  if bytes_eqb (fst h) (str "Content-Length") then (atoi (snd h), snd acc)
  else if bytes_eqb (fst h) (str "Cache-Control") then (fst acc, Some (snd h))
  else acc.

Definition headers_x : list (bytes * bytes) :=
  [(str "Host", str "a.com"); (str "Accept", str "*/*");
   (str "Host", str "b.org:81")].

Definition response_headers_x : list (bytes * bytes) :=
  [(str "Content-Length", str "42"); (str "Server", str "x");
   (str "Cache-Control", str "public, max-age=3600")].

Definition request_lower_host : bytes :=
  request_line_text (str "GET") (str "/") (str "HTTP/1.0")
    ++ header_lines [(str "host", str "a.com")].

Definition request_head_x : bytes :=
  request_line_text (str "GET") (str "/x") (str "HTTP/1.1")
    ++ header_lines headers_x.

Definition response_head_x : bytes :=
  status_line_text (str "HTTP/1.1") (str "200") (str "OK")
    ++ header_lines response_headers_x.

(** * Properties *)

(** ** The library functions *)

Lemma starts_with_occurs d : forall s,
  starts_with d s = true <-> occurs_at d s 0.
Proof.
  unfold occurs_at. simpl.
  induction d as [|a d IH]; intros [|b s]; simpl; try (split; congruence).
  rewrite andb_true_iff, Ascii.eqb_eq, IH. split.
  - intros [-> ->]. reflexivity.
  - intros H. injection H as -> H. split; [reflexivity | assumption].
Qed.

Lemma occurs_at_skipn d s k : occurs_at d s k <-> occurs_at d (skipn k s) 0.
Proof. reflexivity. Qed.

Lemma occurs_at_app d pre post : occurs_at d (pre ++ d ++ post) (length pre).
Proof.
  unfold occurs_at. rewrite skipn_app, skipn_all, Nat.sub_diag. simpl.
  rewrite firstn_app, firstn_all, Nat.sub_diag. simpl. apply app_nil_r.
Qed.

Lemma occurs_at_split d s k :
  occurs_at d s k -> (k <= length s)%nat ->
  s = firstn k s ++ d ++ skipn (length d) (skipn k s).
Proof.
  unfold occurs_at. intros H _.
  rewrite <- (firstn_skipn k s) at 1. f_equal.
  rewrite <- (firstn_skipn (length d) (skipn k s)) at 1. f_equal. exact H.
Qed.

Lemma strstr_Some d : forall s k,
  strstr s d = Some k ->
  occurs_at d s k /\ (k <= length s)%nat /\
  forall j, (j < k)%nat -> ~ occurs_at d s j.
Proof.
  induction s as [|c s IH]; intros k; simpl.
  - destruct (starts_with d []) eqn:E; [|discriminate].
    intros [= <-]. apply starts_with_occurs in E.
    repeat split; [exact E | lia | lia].
  - destruct (starts_with d (c :: s)) eqn:E.
    + intros [= <-]. apply starts_with_occurs in E.
      repeat split; [exact E | lia | lia].
    + destruct (strstr s d) as [k'|] eqn:Es; [|discriminate].
      intros [= <-]. destruct (IH k' eq_refl) as (Ho & Hl & Hf).
      repeat split; [exact Ho | simpl; lia |].
      intros [|j] Hj Hc.
      * apply starts_with_occurs in Hc. congruence.
      * apply (Hf j); [lia | exact Hc].
Qed.

Lemma strstr_None d : forall s,
  strstr s d = None -> forall j, ~ occurs_at d s j.
Proof.
  induction s as [|c s IH]; simpl.
  - destruct (starts_with d []) eqn:E; [discriminate|].
    intros _ j Hc. rewrite occurs_at_skipn, skipn_nil in Hc.
    apply starts_with_occurs in Hc. congruence.
  - destruct (starts_with d (c :: s)) eqn:E; [discriminate|].
    destruct (strstr s d) eqn:Es; [discriminate|].
    intros _ [|j] Hc.
    + apply starts_with_occurs in Hc. congruence.
    + apply (IH eq_refl j). exact Hc.
Qed.

Lemma strstr_first d s k :
  occurs_at d s k -> (k <= length s)%nat ->
  (forall j, (j < k)%nat -> ~ occurs_at d s j) ->
  strstr s d = Some k.
Proof.
  intros Ho Hl Hf. destruct (strstr s d) as [k'|] eqn:E.
  - destruct (strstr_Some _ _ _ E) as (Ho' & _ & Hf').
    f_equal. destruct (Nat.lt_trichotomy k' k) as [H|[H|H]].
    + destruct (Hf _ H Ho').
    + exact H.
    + destruct (Hf' _ H Ho).
  - destruct (strstr_None _ _ E k Ho).
Qed.

Lemma strstr_first_split d s pre post :
  first_split d s pre post -> strstr s d = Some (length pre).
Proof.
  intros [-> Hf]. apply strstr_first.
  - apply occurs_at_app.
  - rewrite length_app. lia.
  - exact Hf.
Qed.

Lemma strstr_absent d s : absent d s -> strstr s d = None.
Proof.
  intros Ha. destruct (strstr s d) as [k|] eqn:E; [|reflexivity].
  destruct (strstr_Some _ _ _ E) as (Ho & Hl & _).
  destruct (Ha _ _ (occurs_at_split _ _ _ Ho Hl)).
Qed.

Lemma strstr_occurs d s a b :
  s = a ++ d ++ b ->
  exists pre post, first_split d s pre post.
Proof.
  intros Hs. destruct (strstr s d) as [k|] eqn:E.
  - destruct (strstr_Some _ _ _ E) as (Ho & Hl & Hf).
    exists (firstn k s), (skipn (length d) (skipn k s)). split.
    + apply occurs_at_split; assumption.
    + rewrite length_firstn, Nat.min_l by exact Hl. exact Hf.
  - exfalso. apply (strstr_None _ _ E (length a)).
    rewrite Hs. apply occurs_at_app.
Qed.

(** ** Memory reads *)

Lemma until_nul_app a : forall l b,
  until_nul l = Some (a ++ b) -> until_nul (skipn (length a) l) = Some b.
Proof.
  induction a as [|x a IH]; intros [|c l] b; simpl; try congruence.
  destruct (Ascii.eqb c NUL); [discriminate|].
  destruct (until_nul l) as [r|] eqn:E; simpl; [|discriminate].
  intros [= -> ->]. apply IH, E.
Qed.

Lemma load_cstr_nonneg m p s : load_cstr m p = Ok s -> 0 <= p.
Proof.
  unfold load_cstr. destruct (p <? 0) eqn:E; [discriminate|]. lia.
Qed.

Lemma load_cstr_advance m p a b :
  load_cstr m p = Ok (a ++ b) ->
  load_cstr m (p + Z.of_nat (length a)) = Ok b.
Proof.
  intros H. pose proof (load_cstr_nonneg _ _ _ H) as Hp.
  unfold load_cstr in *.
  destruct (p <? 0) eqn:E; [discriminate|].
  replace (p + Z.of_nat (length a) <? 0) with false
    by (symmetry; apply Z.ltb_ge; lia).
  replace (Z.to_nat (p + Z.of_nat (length a)))
    with (length a + Z.to_nat p)%nat by lia.
  rewrite <- skipn_skipn.
  destruct (until_nul (skipn (Z.to_nat p) m)) as [r|] eqn:Er; [|discriminate].
  injection H as ->. rewrite (until_nul_app _ _ _ Er). reflexivity.
Qed.

(** ** get_prefix *)

Lemma get_prefix_found m p s d k :
  load_cstr m p = Ok s -> strstr s d = Some k ->
  get_prefix m (Some p) d
  = Ok (Some (p + Z.of_nat k + Z.of_nat (length d), firstn k s)).
Proof.
  intros Hs Hk. unfold get_prefix. rewrite Hs. simpl. rewrite Hk.
  replace (Z.to_nat (p + Z.of_nat k - p)) with k by lia. reflexivity.
Qed.

Lemma get_prefix_absent m p s d :
  load_cstr m p = Ok s -> absent d s -> get_prefix m (Some p) d = Ok None.
Proof.
  intros Hs Ha. unfold get_prefix. rewrite Hs. simpl.
  rewrite (strstr_absent _ _ Ha). reflexivity.
Qed.

Lemma get_prefix_split m p s d pre post :
  load_cstr m p = Ok s -> first_split d s pre post ->
  get_prefix m (Some p) d
  = Ok (Some (p + Z.of_nat (length pre) + Z.of_nat (length d), pre))
  /\ load_cstr m (p + Z.of_nat (length pre) + Z.of_nat (length d)) = Ok post.
Proof.
  intros Hs Hf. pose proof (strstr_first_split _ _ _ _ Hf) as Hk.
  destruct Hf as [-> _]. split.
  - rewrite (get_prefix_found _ _ _ _ _ Hs Hk). repeat f_equal.
    rewrite firstn_app, firstn_all, Nat.sub_diag. apply app_nil_r.
  - rewrite <- Z.add_assoc, <- Nat2Z.inj_add, <- length_app.
    apply load_cstr_advance. rewrite <- app_assoc. exact Hs.
Qed.

Lemma first_split_leading d s pre post b :
  first_split d s pre post -> s = d ++ b -> pre = [].
Proof.
  intros [_ Hf] Hs. destruct pre as [|x pre]; [reflexivity|].
  exfalso. apply (Hf 0%nat); [simpl; lia|].
  rewrite Hs. apply (occurs_at_app d [] b).
Qed.

(** C7. On every input string in which the delimiter occurs, [get_prefix]
    stores the substring strictly before the first occurrence of the
    delimiter and returns the cursor right after the delimiter's last byte
    (the rest of the string starts there).  The prefix is empty when the
    string starts with the delimiter, so an input equal to the delimiter
    is found, with an empty prefix. *)
Theorem get_prefix_first_occurrence m p s d :
  load_cstr m p = Ok s ->
  (exists a b, s = a ++ d ++ b) ->
  exists pre post,
    first_split d s pre post
    /\ get_prefix m (Some p) d
       = Ok (Some (p + Z.of_nat (length pre) + Z.of_nat (length d), pre))
    /\ load_cstr m (p + Z.of_nat (length pre) + Z.of_nat (length d)) = Ok post
    /\ ((exists b, s = d ++ b) -> pre = [])
    /\ (s = d -> pre = [] /\ post = []).
Proof.
  intros Hs (a & b & Hab).
  destruct (strstr_occurs _ _ _ _ Hab) as (pre & post & Hf).
  exists pre, post.
  destruct (get_prefix_split _ _ _ _ _ _ Hs Hf) as [Hg Hc].
  split; [exact Hf|]. split; [exact Hg|]. split; [exact Hc|]. split.
  - intros [b' Hb]. exact (first_split_leading _ _ _ _ _ Hf Hb).
  - intros Hd. assert (Hp : pre = []).
    { apply (first_split_leading _ _ _ _ [] Hf). rewrite app_nil_r.
      exact Hd. }
    split; [exact Hp|].
    destruct Hf as [Hf _]. subst pre. simpl in Hf. rewrite Hd in Hf at 1.
    rewrite <- (app_nil_r d) in Hf at 1. apply app_inv_head in Hf.
    symmetry. exact Hf.
Qed.

Lemma get_prefix_first_occurrence_witness :
  load_cstr (cstring (str "a.com:8080")) 0 = Ok (str "a.com:8080")
  /\ exists pre post,
    first_split (str ":") (str "a.com:8080") pre post
    /\ get_prefix (cstring (str "a.com:8080")) (Some 0) (str ":")
       = Ok (Some (0 + Z.of_nat (length pre) + Z.of_nat (length (str ":")),
                   pre))
    /\ load_cstr (cstring (str "a.com:8080"))
         (0 + Z.of_nat (length pre) + Z.of_nat (length (str ":"))) = Ok post
    /\ ((exists b, str "a.com:8080" = str ":" ++ b) -> pre = [])
    /\ (str "a.com:8080" = str ":" -> pre = [] /\ post = []).
Proof.
  split; [reflexivity|].
  apply (get_prefix_first_occurrence (cstring (str "a.com:8080")) 0
           (str "a.com:8080") (str ":")).
  - reflexivity.
  - exists (str "a.com"), (str "8080"). reflexivity.
Defined.

(** ** Deciding occurrences by computation *)

Lemma strstr_None_absent d s : strstr s d = None -> absent d s.
Proof.
  intros E a b Hs. apply (strstr_None _ _ E (length a)).
  rewrite Hs. apply occurs_at_app.
Qed.

Lemma strstr_Some_first_split d s pre post :
  strstr s d = Some (length pre) -> s = pre ++ d ++ post ->
  first_split d s pre post.
Proof.
  intros E Hs. split; [exact Hs|].
  destruct (strstr_Some _ _ _ E) as (_ & _ & Hf). exact Hf.
Qed.

(** ** Line parsers *)

Ltac step :=
  cbn [bind cursor stored method url version s_version status_code phrase
       hostname port].

Lemma parse_request_line_ok m p s o me u v r1 r2 rest :
  load_cstr m p = Ok s ->
  first_split SP s me r1 -> first_split SP r1 u r2 ->
  first_split CRLF r2 v rest ->
  parse_request_line m (Some p) o
  = Ok (Z.of_nat (length (me ++ SP ++ u ++ SP ++ v ++ CRLF)),
        mk_request_line (Some me) (Some u) (Some v)).
Proof.
  intros Hs H1 H2 H3.
  destruct (get_prefix_split _ _ _ _ _ _ Hs H1) as [G1 L1].
  destruct (get_prefix_split _ _ _ _ _ _ L1 H2) as [G2 L2].
  destruct (get_prefix_split _ _ _ _ _ _ L2 H3) as [G3 _].
  unfold parse_request_line.
  rewrite G1. step. rewrite G2. step. rewrite G3. step.
  do 2 f_equal. rewrite !length_app. simpl. lia.
Qed.

(** The three searches of [parse_request_line] run over the rest of the
    string, not over the line: the method goes up to the first [" "] of the
    string, the URL up to the next [" "] and the version up to the next
    ["\r\n"].  The result is -1 when a delimiter does not occur in what is
    left of the string, with the tokens found so far stored; otherwise it
    is the offset right after the ["\r\n"] that ended the version. *)
Theorem parse_request_line_tokens m p s o :
  load_cstr m p = Ok s ->
  (absent SP s -> parse_request_line m (Some p) o = Ok (-1, o))
  /\ (forall me r1,
        first_split SP s me r1 -> absent SP r1 ->
        parse_request_line m (Some p) o
        = Ok (-1, mk_request_line (Some me) (url o) (version o)))
  /\ (forall me u r1 r2,
        first_split SP s me r1 -> first_split SP r1 u r2 ->
        absent CRLF r2 ->
        parse_request_line m (Some p) o
        = Ok (-1, mk_request_line (Some me) (Some u) (version o)))
  /\ (forall me u v r1 r2 rest,
        first_split SP s me r1 -> first_split SP r1 u r2 ->
        first_split CRLF r2 v rest ->
        s = (me ++ SP ++ u ++ SP ++ v ++ CRLF) ++ rest
        /\ parse_request_line m (Some p) o
           = Ok (Z.of_nat (length (me ++ SP ++ u ++ SP ++ v ++ CRLF)),
                 mk_request_line (Some me) (Some u) (Some v))).
Proof.
  intros Hs. split; [|split; [|split]].
  - intros Ha. unfold parse_request_line.
    rewrite (get_prefix_absent _ _ _ _ Hs Ha). destruct o; reflexivity.
  - intros me r1 H1 Ha.
    destruct (get_prefix_split _ _ _ _ _ _ Hs H1) as [G1 L1].
    unfold parse_request_line. rewrite G1. step.
    rewrite (get_prefix_absent _ _ _ _ L1 Ha). reflexivity.
  - intros me u r1 r2 H1 H2 Ha.
    destruct (get_prefix_split _ _ _ _ _ _ Hs H1) as [G1 L1].
    destruct (get_prefix_split _ _ _ _ _ _ L1 H2) as [G2 L2].
    unfold parse_request_line. rewrite G1. step.
    rewrite G2. step.
    rewrite (get_prefix_absent _ _ _ _ L2 Ha). reflexivity.
  - intros me u v r1 r2 rest H1 H2 H3. split.
    + destruct H1 as [-> _], H2 as [-> _], H3 as [-> _].
      rewrite <- !app_assoc. reflexivity.
    + exact (parse_request_line_ok _ _ _ o _ _ _ _ _ _ Hs H1 H2 H3).
Qed.

Lemma parse_request_line_tokens_witness :
  load_cstr (cstring request_x) 0 = Ok request_x
  /\ first_split SP request_x (str "GET")
       (str "/x HTTP/1.1" ++ CRLF ++ str "Host: a.com" ++ CRLF)
  /\ parse_request_line (cstring request_x) (Some 0) no_request_line
     = Ok (17, mk_request_line (Some (str "GET")) (Some (str "/x"))
                               (Some (str "HTTP/1.1"))).
Proof.
  assert (H1 : first_split SP request_x (str "GET")
                 (str "/x HTTP/1.1" ++ CRLF ++ str "Host: a.com" ++ CRLF))
    by (apply strstr_Some_first_split; reflexivity).
  split; [reflexivity|]. split; [exact H1|].
  refine (proj2 (proj2 (proj2 (proj2
    (parse_request_line_tokens (cstring request_x) 0 request_x
       no_request_line eq_refl)))
    (str "GET") (str "/x") (str "HTTP/1.1") _
    (str "HTTP/1.1" ++ CRLF ++ str "Host: a.com" ++ CRLF)
    (str "Host: a.com" ++ CRLF) H1 _ _)).
  - apply strstr_Some_first_split; reflexivity.
  - apply strstr_Some_first_split; reflexivity.
Defined.

(** C6. A request line that lacks a delimiter is not rejected when the
    lines after it supply one.  The line ["GET /x"] has a single [" "], so
    the URL has no delimiter within the line; the search for the second
    [" "] runs on into the header line, and on
    ["GET /x\r\nHost: a.com\r\n"] the call returns 21, the length of both
    lines, with the URL spanning the line end, where -1 is documented (and
    8 is the offset after the ["\r\n"] of the line). *)
Theorem parse_request_line_crosses_line_end :
  first_split CRLF request_no_version (str "GET /x")
    (str "Host: a.com" ++ CRLF)
  /\ first_split SP (str "GET /x") (str "GET") (str "/x")
  /\ absent SP (str "/x")
  /\ Z.of_nat (length (str "GET /x" ++ CRLF)) = 8
  /\ parse_request_line (cstring request_no_version) (Some 0)
       no_request_line
     = Ok (21, mk_request_line (Some (str "GET"))
                 (Some (str "/x" ++ CRLF ++ str "Host:"))
                 (Some (str "a.com"))).
Proof.
  split; [apply strstr_Some_first_split; reflexivity|].
  split; [apply strstr_Some_first_split; reflexivity|].
  split; [apply strstr_None_absent; reflexivity|].
  split; reflexivity.
Qed.

Lemma parse_header_line_absent m p s name value :
  load_cstr m p = Ok s -> absent (str ": ") s ->
  parse_header_line m (Some p) name value = Ok (-1, name, value).
Proof.
  intros Hs Ha. unfold parse_header_line.
  rewrite (get_prefix_absent _ _ _ _ Hs Ha). reflexivity.
Qed.

Lemma parse_header_line_ok m p s name value nm v r1 rest :
  load_cstr m p = Ok s ->
  first_split (str ": ") s nm r1 -> first_split CRLF r1 v rest ->
  parse_header_line m (Some p) name value
  = Ok (Z.of_nat (length (nm ++ str ": " ++ v ++ CRLF)), Some nm, Some v).
Proof.
  intros Hs H1 H2.
  destruct (get_prefix_split _ _ _ _ _ _ Hs H1) as [G1 L1].
  destruct (get_prefix_split _ _ _ _ _ _ L1 H2) as [G2 _].
  unfold parse_header_line. rewrite G1. step. rewrite G2. step.
  do 3 f_equal. rewrite !length_app. simpl. lia.
Qed.

(** C5. A header line with no [": "] before its ["\r\n"] is not rejected
    when a later line has one: the search for [": "] runs on to the end of
    the string, so on ["bad\r\nHost: a.com\r\n"] the name spans the line
    end and the returned length is that of two lines. *)
Theorem parse_header_line_crosses_line_end :
  first_split CRLF bad_then_host (str "bad") (str "Host: a.com" ++ CRLF)
  /\ absent (str ": ") (str "bad")
  /\ parse_header_line (cstring bad_then_host) (Some 0) None None
     = Ok (18, Some (str "bad" ++ CRLF ++ str "Host"), Some (str "a.com")).
Proof.
  split; [|split].
  - apply strstr_Some_first_split; reflexivity.
  - apply strstr_None_absent. reflexivity.
  - reflexivity.
Qed.

(** ** Integer decoding *)

Lemma atoi_non_numeric l : numeric_start l = false -> atoi l = 0.
Proof.
  unfold numeric_start, atoi, strtol10.
  destruct (skip_space l) as [|c l']; [reflexivity|].
  destruct (Ascii.eqb c "-"); simpl.
  - destruct l' as [|d l']; [reflexivity|]. simpl. intros ->. reflexivity.
  - destruct (Ascii.eqb c "+"); simpl.
    + destruct l' as [|d l']; [reflexivity|]. simpl. intros ->. reflexivity.
    + intros ->. reflexivity.
Qed.

(** C8. A status line whose three tokens are delimited by [" "], [" "] and
    ["\r\n"] is parsed with success whatever the status-code token is: the
    code is the [atoi] of the token, and 0 when the token does not start a
    number. *)
Theorem parse_status_line_lenient m p s o v c ph r1 r2 rest :
  load_cstr m p = Ok s ->
  first_split SP s v r1 -> first_split SP r1 c r2 ->
  first_split CRLF r2 ph rest ->
  parse_status_line m (Some p) o
  = Ok (Z.of_nat (length (v ++ SP ++ c ++ SP ++ ph ++ CRLF)),
        mk_status_line (Some v) (atoi c) (Some ph))
  /\ (numeric_start c = false ->
      parse_status_line m (Some p) o
      = Ok (Z.of_nat (length (v ++ SP ++ c ++ SP ++ ph ++ CRLF)),
            mk_status_line (Some v) 0 (Some ph))).
Proof.
  intros Hs H1 H2 H3.
  destruct (get_prefix_split _ _ _ _ _ _ Hs H1) as [G1 L1].
  destruct (get_prefix_split _ _ _ _ _ _ L1 H2) as [G2 L2].
  destruct (get_prefix_split _ _ _ _ _ _ L2 H3) as [G3 _].
  assert (E : parse_status_line m (Some p) o
              = Ok (Z.of_nat (length (v ++ SP ++ c ++ SP ++ ph ++ CRLF)),
                    mk_status_line (Some v) (atoi c) (Some ph))).
  { unfold parse_status_line.
    rewrite G1. step. rewrite G2. step. rewrite G3. step.
    do 2 f_equal. rewrite !length_app. simpl. lia. }
  split; [exact E|].
  intros Hn. rewrite E, (atoi_non_numeric _ Hn). reflexivity.
Qed.

Lemma parse_status_line_lenient_witness :
  load_cstr (cstring status_abc) 0 = Ok status_abc
  /\ numeric_start (str "abc") = false
  /\ parse_status_line (cstring status_abc) (Some 0)
       (mk_status_line None 7 None)
     = Ok (24, mk_status_line (Some (str "HTTP/1.1")) 0
                              (Some (str "Not Found"))).
Proof.
  split; [reflexivity|]. split; [reflexivity|].
  refine (proj2
    (parse_status_line_lenient (cstring status_abc) 0 status_abc
       (mk_status_line None 7 None)
       (str "HTTP/1.1") (str "abc") (str "Not Found")
       (str "abc Not Found" ++ CRLF) (str "Not Found" ++ CRLF) []
       eq_refl _ _ _) eq_refl);
    apply strstr_Some_first_split; reflexivity.
Defined.

(** ** Field sub-parsers *)

Lemma strlen_cstr m p s :
  load_cstr m p = Ok s -> strlen m (Some p) = Ok (Z.of_nat (length s)).
Proof. intros Hs. unfold strlen. rewrite Hs. reflexivity. Qed.

(** C9. [parse_host_field] splits on the first [":"].  Without a [":"]
    the hostname is the whole input and the port keeps its value; when
    nothing follows the first [":"] the port keeps its value; otherwise
    the port is the [atoi] of what follows the first [":"] (0 when that
    does not start a number), and the hostname is the text before the
    [":"]. *)
Theorem parse_host_field_split m p s o :
  load_cstr m p = Ok s ->
  (absent (str ":") s ->
   parse_host_field m (Some p) o = Ok (mk_host_field (Some s) (port o)))
  /\ (forall h,
        first_split (str ":") s h [] ->
        parse_host_field m (Some p) o
        = Ok (mk_host_field (Some h) (port o)))
  /\ (forall h r,
        first_split (str ":") s h r -> r <> [] ->
        parse_host_field m (Some p) o
        = Ok (mk_host_field (Some h) (atoi r))
        /\ (numeric_start r = false -> atoi r = 0)).
Proof.
  intros Hs. pose proof (strlen_cstr _ _ _ Hs) as Hn.
  split; [|split].
  - intros Ha. unfold parse_host_field.
    rewrite (get_prefix_absent _ _ _ _ Hs Ha). step. rewrite Hs.
    reflexivity.
  - intros h Hf.
    destruct (get_prefix_split _ _ _ _ _ _ Hs Hf) as [G L].
    unfold parse_host_field. rewrite G. step. rewrite Hn. step.
    destruct Hf as [-> _]. rewrite !length_app.
    replace (_ <? _) with false; [reflexivity|].
    symmetry. apply Z.ltb_ge. simpl. lia.
  - intros h r Hf Hr. split; [|apply atoi_non_numeric].
    destruct (get_prefix_split _ _ _ _ _ _ Hs Hf) as [G L].
    unfold parse_host_field. rewrite G. step. rewrite Hn. step.
    replace (_ <? _) with true; [rewrite L; reflexivity|].
    symmetry. apply Z.ltb_lt. destruct Hf as [-> _]. rewrite !length_app.
    destruct r; [congruence|]. simpl. lia.
Qed.

Lemma parse_host_field_split_witness :
  load_cstr (cstring (str "a.com:8080")) 0 = Ok (str "a.com:8080")
  /\ parse_host_field (cstring (str "a.com:8080")) (Some 0)
       (mk_host_field None 80)
     = Ok (mk_host_field (Some (str "a.com")) 8080).
Proof.
  split; [reflexivity|].
  refine (proj1 (proj2 (proj2
    (parse_host_field_split (cstring (str "a.com:8080")) 0
       (str "a.com:8080") (mk_host_field None 80) eq_refl))
    (str "a.com") (str "8080") _ _)).
  - apply strstr_Some_first_split; reflexivity.
  - discriminate.
Defined.

(** ** Head and body *)

(** C10. When the scanned bytes (the C string at [buf]) hold no
    ["\r\n\r\n"], and when [buf] is NULL, [parse_body_head] returns with
    every output slot holding the value the caller supplied. *)
Theorem parse_body_head_incomplete m n o :
  parse_body_head m None n o = Ok o
  /\ forall p s,
       load_cstr m p = Ok s -> absent CRLFCRLF s ->
       parse_body_head m (Some p) n o = Ok o.
Proof.
  split; [reflexivity|].
  intros p s Hs Ha. unfold parse_body_head. rewrite Hs. step.
  rewrite (strstr_absent _ _ Ha). reflexivity.
Qed.

Lemma parse_body_head_incomplete_witness :
  load_cstr object_clean_tail 0 = Ok (str "a" ++ CRLF)
  /\ absent CRLFCRLF (str "a" ++ CRLF)
  /\ parse_body_head object_clean_tail (Some 0) 3
       (mk_body_head (Some (str "old")) 3 None 7)
     = Ok (mk_body_head (Some (str "old")) 3 None 7).
Proof.
  assert (Ha : absent CRLFCRLF (str "a" ++ CRLF))
    by (apply strstr_None_absent; reflexivity).
  split; [reflexivity|]. split; [exact Ha|].
  exact (proj2 (parse_body_head_incomplete object_clean_tail 3
                  (mk_body_head (Some (str "old")) 3 None 7))
               0 (str "a" ++ CRLF) eq_refl Ha).
Defined.

(** C1. The scan of [parse_body_head] is not bounded by [n].  Two objects
    agree on their first three bytes, which hold no ["\r\n\r\n"]; with
    [n = 3] the call returns with nothing stored on one, and on the other
    finds the separator that ends past offset 3, takes the body length
    [3 - 3 - 2] in [unsigned] and copies out of bounds.  On three bytes
    with no terminator the scan itself leaves the object. *)
Theorem parse_body_head_scans_past_n :
  firstn 3 object_stale_tail = firstn 3 object_clean_tail
  /\ absent CRLFCRLF (firstn 3 object_stale_tail)
  /\ parse_body_head object_clean_tail (Some 0) 3 no_body_head
     = Ok no_body_head
  /\ parse_body_head object_stale_tail (Some 0) 3 no_body_head
     = Fault OutOfBounds
  /\ parse_body_head object_unterminated (Some 0) 3 no_body_head
     = Fault OutOfBounds.
Proof.
  split; [reflexivity|]. split.
  - apply strstr_None_absent. reflexivity.
  - repeat split; reflexivity.
Qed.

Lemma until_nul_skip a : forall l,
  ~ In NUL a -> until_nul (a ++ l) = option_map (app a) (until_nul l).
Proof.
  induction a as [|x a IH]; intros l Hn; simpl.
  - destruct (until_nul l); reflexivity.
  - destruct (Ascii.eqb x NUL) eqn:E.
    + apply Ascii.eqb_eq in E. destruct Hn. left. exact E.
    + rewrite IH by (intros H; apply Hn; right; exact H).
      destruct (until_nul l); reflexivity.
Qed.

Lemma occurs_at_app_l d a x j :
  (j + length d <= length a)%nat ->
  occurs_at d (a ++ x) j <-> occurs_at d a j.
Proof.
  intros Hj. unfold occurs_at.
  rewrite skipn_app, firstn_app, length_skipn.
  replace (length d - (length a - j))%nat with 0%nat by lia.
  rewrite firstn_O, app_nil_r. reflexivity.
Qed.

(** A string that begins with the bytes of a split buffer, up to and with
    the delimiter, splits at the same place. *)
Lemma first_split_extend d pre post s' :
  first_split d (pre ++ d ++ post) pre post ->
  first_split d (pre ++ d ++ s') pre s'.
Proof.
  intros [_ Hf]. split; [reflexivity|].
  intros j Hj Ho. apply (Hf j Hj).
  rewrite app_assoc in Ho |- *.
  apply occurs_at_app_l; [rewrite length_app; lia|].
  apply occurs_at_app_l in Ho; [exact Ho | rewrite length_app; lia].
Qed.

Lemma to_uint_small x : 0 <= x < 2 ^ 32 -> to_uint x = x.
Proof. intros H. apply Z.mod_small. exact H. Qed.

Lemma to_int_small x : 0 <= x <= INT_MAX -> to_int x = x.
Proof.
  unfold to_int, INT_MAX. intros H.
  rewrite Z.mod_small by lia. lia.
Qed.

Lemma malloc_copy_ok m p size :
  0 <= p -> 0 <= size <= INT_MAX -> p + size <= Z.of_nat (length m) ->
  malloc_copy m p size
  = Ok (firstn (Z.to_nat size) (skipn (Z.to_nat p) m)).
Proof.
  unfold INT_MAX. intros Hp Hs Hl. unfold malloc_copy, load_bytes.
  rewrite to_uint_small by lia.
  rewrite Z.ltb_irrefl.
  replace (p <? 0) with false by (symmetry; apply Z.ltb_ge; lia).
  replace (size <? 0) with false by (symmetry; apply Z.ltb_ge; lia).
  replace (_ <? p + size) with false by (symmetry; apply Z.ltb_ge; lia).
  reflexivity.
Qed.

(** C2, as the code has it.  Let the [n] bytes at [buf] hold their first
    ["\r\n\r\n"] at offset [pos], with no NUL byte before it, in an
    object that is NUL-terminated somewhere from [buf] on.  Then
    [parse_body_head] stores as head the bytes [0, pos+2) with length
    [pos+2], and as body the bytes [pos+4, n) with length [n-(pos+4)]. *)
Theorem parse_body_head_split m p n o s pre post :
  is_int n ->
  p + n <= Z.of_nat (length m) ->
  load_cstr m p = Ok s ->
  first_split CRLFCRLF (buffer m p n) pre post ->
  ~ In NUL pre ->
  parse_body_head m (Some p) n o
  = Ok (mk_body_head
          (Some (firstn (length pre + 2) (buffer m p n)))
          (Z.of_nat (length pre) + 2)
          (Some (skipn (length pre + 4) (buffer m p n)))
          (n - (Z.of_nat (length pre) + 4))).
Proof.
  intros Hn Hl Hs Hf Hnul.
  pose proof (load_cstr_nonneg _ _ _ Hs) as Hp.
  unfold is_int, INT_MAX in Hn.
  assert (Hlen : length (buffer m p n) = Z.to_nat n).
  { unfold buffer. rewrite length_firstn, length_skipn. lia. }
  assert (Hlen' : (length pre + 4 + length post = Z.to_nat n)%nat).
  { rewrite <- Hlen. destruct Hf as [-> _]. rewrite !length_app.
    simpl. lia. }
  (* the C string at [buf] starts with the head and the blank line *)
  assert (Hs' : exists s', s = pre ++ CRLFCRLF ++ s').
  { unfold load_cstr in Hs.
    replace (p <? 0) with false in Hs by (symmetry; apply Z.ltb_ge; lia).
    rewrite <- (firstn_skipn (Z.to_nat n) (skipn (Z.to_nat p) m)) in Hs.
    fold (buffer m p n) in Hs. destruct Hf as [Hb _]. rewrite Hb in Hs.
    rewrite <- !app_assoc in Hs. rewrite until_nul_skip in Hs by exact Hnul.
    rewrite (until_nul_skip CRLFCRLF) in Hs
      by (simpl; intros [H|[H|[H|[H|[]]]]]; discriminate H).
    destruct (until_nul _) as [s'|]; simpl in Hs; [|discriminate].
    exists s'. injection Hs as <-. reflexivity. }
  destruct Hs' as [s' ->].
  assert (Hk : strstr (pre ++ CRLFCRLF ++ s') CRLFCRLF = Some (length pre)).
  { apply strstr_first_split with (post := s').
    apply first_split_extend with (post := post).
    destruct Hf as [Hb Hf]. rewrite <- Hb. split; [exact Hb | exact Hf]. }
  unfold parse_body_head. rewrite Hs. step. rewrite Hk.
  cbv zeta.
  replace (p + Z.of_nat (length pre) + Z.of_nat (length CRLF) - p)
    with (Z.of_nat (length pre) + 2) by (simpl; lia).
  rewrite (to_uint_small (Z.of_nat (length pre) + 2)) by lia.
  rewrite malloc_copy_ok by (unfold INT_MAX; lia). step.
  replace (n - (Z.of_nat (length pre) + 2) - Z.of_nat (length CRLF))
    with (n - (Z.of_nat (length pre) + 4)) by (simpl; lia).
  rewrite (to_uint_small (n - _)) by lia.
  rewrite malloc_copy_ok by (unfold INT_MAX; simpl; lia). step.
  rewrite !to_int_small by (unfold INT_MAX; lia).
  cbn [out_head out_head_len].
  do 2 f_equal.
  - f_equal. unfold buffer. rewrite firstn_firstn. f_equal. lia.
  - f_equal. unfold buffer. rewrite skipn_firstn_comm, skipn_skipn.
    f_equal; [lia|]. f_equal. simpl. lia.
Qed.

Lemma no_nul_dec (l : bytes) :
  forallb (fun c => negb (Ascii.eqb c NUL)) l = true -> ~ In NUL l.
Proof.
  rewrite forallb_forall. intros H Hin. specialize (H _ Hin).
  rewrite Ascii.eqb_refl in H. discriminate H.
Qed.

Lemma parse_body_head_split_witness :
  is_int 36
  /\ 0 + 36 <= Z.of_nat (length (cstring message_x))
  /\ load_cstr (cstring message_x) 0 = Ok message_x
  /\ first_split CRLFCRLF (buffer (cstring message_x) 0 36)
       (str "GET /x HTTP/1.1" ++ CRLF ++ str "Host: a.com") (str "body")
  /\ parse_body_head (cstring message_x) (Some 0) 36 no_body_head
     = Ok (mk_body_head (Some request_x) 30 (Some (str "body")) 4).
Proof.
  assert (Hi : is_int 36) by (unfold is_int, INT_MAX; lia).
  assert (Hl : 0 + 36 <= Z.of_nat (length (cstring message_x)))
    by (simpl; lia).
  assert (Hf : first_split CRLFCRLF (buffer (cstring message_x) 0 36)
                 (str "GET /x HTTP/1.1" ++ CRLF ++ str "Host: a.com")
                 (str "body"))
    by (apply strstr_Some_first_split; reflexivity).
  split; [exact Hi|]. split; [exact Hl|]. split; [reflexivity|].
  split; [exact Hf|].
  apply (parse_body_head_split (cstring message_x) 0 36 no_body_head
           message_x _ _ Hi Hl eq_refl Hf).
  apply no_nul_dec. reflexivity.
Defined.

(** C2 as stated fails on a buffer with a NUL byte before its blank line:
    the first ["\r\n\r\n"] of the seven bytes starts at offset 2, and the
    call returns with nothing stored. *)
Lemma parse_body_head_nul_in_head :
  first_split CRLFCRLF (buffer object_nul_in_head 0 7)
    (firstn 2 object_nul_in_head) (str "b")
  /\ parse_body_head object_nul_in_head (Some 0) 7 no_body_head
     = Ok no_body_head
  /\ parse_body_head object_nul_in_head (Some 0) 7 no_body_head
     <> Ok (mk_body_head
              (Some (firstn (2 + 2) (buffer object_nul_in_head 0 7))) (2 + 2)
              (Some (skipn (2 + 4) (buffer object_nul_in_head 0 7)))
              (7 - (2 + 4))).
Proof.
  split; [apply strstr_Some_first_split; reflexivity|].
  split; [reflexivity|]. discriminate.
Qed.

(** ** Head assemblers *)

Lemma request_headers_unroll m fuel end_ st st' h len nm v :
  st < end_ ->
  parse_header_line m (Some st) None None = Ok (len, nm, v) ->
  st' = st + len ->
  is_name nm "Host" = false ->
  request_headers m (S fuel) end_ st None None h
  = request_headers m fuel end_ st' None None h.
Proof.
  intros Hlt Hp -> Hn. simpl.
  replace (st <? end_) with true by (symmetry; apply Z.ltb_lt; exact Hlt).
  rewrite Hp, Hn. reflexivity.
Qed.

Lemma response_headers_unroll m fuel end_ st st' cl cc len nm v :
  st < end_ ->
  parse_header_line m (Some st) None None = Ok (len, nm, v) ->
  st' = st + len ->
  is_name nm "Content-Length" = false ->
  is_name nm "Cache-Control" = false ->
  response_headers m (S fuel) end_ st None None cl cc
  = response_headers m fuel end_ st' None None cl cc.
Proof.
  intros Hlt Hp -> Hn1 Hn2. simpl.
  replace (st <? end_) with true by (symmetry; apply Z.ltb_lt; exact Hlt).
  rewrite Hp, Hn1, Hn2. reflexivity.
Qed.

Ltac unroll_request st st' len nm v :=
  rewrite (request_headers_unroll _ _ _ st st' _ len nm v);
  [ | lia | vm_compute; reflexivity | reflexivity | reflexivity ].

Ltac unroll_response st st' len nm v :=
  rewrite (response_headers_unroll _ _ _ st st' _ _ len nm v);
  [ | lia | vm_compute; reflexivity | reflexivity | reflexivity
    | reflexivity ].

(** Once at the malformed line the cursor of the request loop steps back
    byte by byte to the [": "] of the line before, which parses as a header
    with an empty name and brings it to the malformed line again. *)
Lemma request_headers_cycle : forall fuel h,
  request_headers (cstring request_bad_header) fuel 27 22 None None h = None.
Proof.
  induction fuel as [fuel IH] using (well_founded_induction lt_wf).
  intros h.
  destruct fuel as [|fuel]; [reflexivity|].
  unroll_request 22 21 (-1) (@None bytes) (@None bytes).
  destruct fuel as [|fuel]; [reflexivity|].
  unroll_request 21 20 (-1) (@None bytes) (@None bytes).
  destruct fuel as [|fuel]; [reflexivity|].
  unroll_request 20 19 (-1) (@None bytes) (@None bytes).
  destruct fuel as [|fuel]; [reflexivity|].
  unroll_request 19 18 (-1) (@None bytes) (@None bytes).
  destruct fuel as [|fuel]; [reflexivity|].
  unroll_request 18 17 (-1) (@None bytes) (@None bytes).
  destruct fuel as [|fuel]; [reflexivity|].
  unroll_request 17 22 5 (Some (@nil ascii)) (Some (str "b")).
  apply IH. lia.
Qed.

Lemma response_headers_cycle : forall fuel cl cc,
  response_headers (cstring response_bad_header) fuel 28 23 None None cl cc
  = None.
Proof.
  induction fuel as [fuel IH] using (well_founded_induction lt_wf).
  intros cl cc.
  destruct fuel as [|fuel]; [reflexivity|].
  unroll_response 23 22 (-1) (@None bytes) (@None bytes).
  destruct fuel as [|fuel]; [reflexivity|].
  unroll_response 22 21 (-1) (@None bytes) (@None bytes).
  destruct fuel as [|fuel]; [reflexivity|].
  unroll_response 21 20 (-1) (@None bytes) (@None bytes).
  destruct fuel as [|fuel]; [reflexivity|].
  unroll_response 20 19 (-1) (@None bytes) (@None bytes).
  destruct fuel as [|fuel]; [reflexivity|].
  unroll_response 19 18 (-1) (@None bytes) (@None bytes).
  destruct fuel as [|fuel]; [reflexivity|].
  unroll_response 18 23 5 (Some (@nil ascii)) (Some (str "b")).
  apply IH. lia.
Qed.

(** C3. The header loops need not terminate.  On a head whose last header
    line has no [": "], [parse_header_line] returns -1, the loop adds it to
    the cursor, and the cursor comes back to the same line for ever: no
    number of iterations reaches the exit of the loop, in
    [parse_request_head] and in [parse_response_head] alike. *)
Theorem header_loops_diverge :
  (forall fuel,
     parse_request_head (cstring request_bad_header) fuel (Some 0)
       no_request_head = None)
  /\ (forall fuel,
       parse_response_head (cstring response_bad_header) fuel (Some 0)
         no_response_head = None).
Proof.
  split; intros fuel.
  - unfold parse_request_head.
    replace (strlen (cstring request_bad_header) (Some 0)) with (Ok 27)
      by reflexivity.
    replace (parse_request_line (cstring request_bad_header) (Some 0)
               (req_line no_request_head))
      with (Ok (16, mk_request_line (Some (str "GET")) (Some (str "/"))
                                    (Some (str "HTTP/1.1"))))
      by reflexivity.
    change (0 + 27) with 27. change (0 + 16) with 16.
    destruct fuel as [|fuel]; [reflexivity|].
    unroll_request 16 22 6 (Some (str "A")) (Some (str "b")).
    rewrite request_headers_cycle. reflexivity.
  - unfold parse_response_head.
    replace (strlen (cstring response_bad_header) (Some 0)) with (Ok 28)
      by reflexivity.
    replace (parse_status_line (cstring response_bad_header) (Some 0)
               (st_line no_response_head))
      with (Ok (17, mk_status_line (Some (str "HTTP/1.1")) 200
                                   (Some (str "OK"))))
      by reflexivity.
    change (0 + 28) with 28. change (0 + 17) with 17.
    destruct fuel as [|fuel]; [reflexivity|].
    unroll_response 17 23 6 (Some (str "A")) (Some (str "b")).
    rewrite response_headers_cycle. reflexivity.
Qed.

(** C4. An invalid first line does not stop the head parse.  The -1 that
    [parse_request_line] or [parse_status_line] returns is added to the
    cursor and the header loop starts one byte before the head.  For a head
    at the start of its object that read is out of bounds; for a head that
    follows another byte of its object the loop parses header lines from
    that byte on and can store a host. *)
Theorem invalid_first_line_not_aborted :
  parse_request_line (cstring head_bad_first_line) (Some 0) no_request_line
  = Ok (-1, no_request_line)
  /\ (forall fuel,
       parse_request_head (cstring head_bad_first_line) (S fuel) (Some 0)
         no_request_head = Some (Fault OutOfBounds))
  /\ parse_request_line object_H_ost (Some 1) no_request_line
     = Ok (-1, mk_request_line (Some (str "ost:")) None None)
  /\ (forall fuel,
       parse_request_head object_H_ost (S (S fuel)) (Some 1) no_request_head
       = Some (Ok (mk_request_head
                     (mk_request_line (Some (str "ost:")) None None)
                     (Some (str "a.com")))))
  /\ parse_status_line (cstring head_bad_first_line) (Some 0) no_status_line
     = Ok (-1, no_status_line)
  /\ (forall fuel,
       parse_response_head (cstring head_bad_first_line) (S fuel) (Some 0)
         no_response_head = Some (Fault OutOfBounds)).
Proof.
  repeat split; try reflexivity; intros fuel; reflexivity.
Qed.

(** * Further properties of the parser *)

(** ** Tokens *)

Lemma token_split d t rest : token d t -> first_split d (t ++ d ++ rest) t rest.
Proof.
  intros Ht. split; [reflexivity|].
  intros j Hj Ho. apply (Ht j Hj).
  rewrite app_assoc in Ho.
  apply occurs_at_app_l in Ho; [exact Ho | rewrite length_app; lia].
Qed.

Lemma token_dec d t : strstr (t ++ d) d = Some (length t) -> token d t.
Proof.
  intros E j Hj. destruct (strstr_Some _ _ _ E) as (_ & _ & Hf).
  exact (Hf j Hj).
Qed.

(** ** The tokenizer when nothing is found *)

(** On NULL, and on a string in which the delimiter does not occur,
    [get_prefix] returns NULL and leaves the output slot as it was. *)
Theorem get_prefix_not_found m d old :
  (get_prefix m None d = Ok None)
  /\ forall p s,
       load_cstr m p = Ok s -> absent d s ->
       exists r, get_prefix m (Some p) d = Ok r
                 /\ cursor r = None /\ stored r old = old.
Proof.
  split; [reflexivity|].
  intros p s Hs Ha. exists None.
  rewrite (get_prefix_absent _ _ _ _ Hs Ha). repeat split.
Qed.

Lemma get_prefix_not_found_witness :
  load_cstr (cstring (str "a.com")) 0 = Ok (str "a.com")
  /\ absent (str ":") (str "a.com")
  /\ exists r, get_prefix (cstring (str "a.com")) (Some 0) (str ":") = Ok r
               /\ cursor r = None
               /\ stored r (Some (str "old")) = Some (str "old").
Proof.
  assert (Ha : absent (str ":") (str "a.com"))
    by (apply strstr_None_absent; reflexivity).
  split; [reflexivity|]. split; [exact Ha|].
  exact (proj2 (get_prefix_not_found (cstring (str "a.com")) (str ":")
                  (Some (str "old")))
               0 (str "a.com") eq_refl Ha).
Defined.

(** ** Lines built from tokens *)

(** A request line written from three tokens parses back to them: the
    method, URL and version are returned as written, the result is the
    length of the line, and the cursor advanced by it is at the text that
    follows the line. *)
Theorem parse_request_line_rendered m p o me u v rest :
  load_cstr m p = Ok (request_line_text me u v ++ rest) ->
  token SP me -> token SP u -> token CRLF v ->
  parse_request_line m (Some p) o
  = Ok (Z.of_nat (length (request_line_text me u v)),
        mk_request_line (Some me) (Some u) (Some v))
  /\ load_cstr m (p + Z.of_nat (length (request_line_text me u v))) = Ok rest.
Proof.
  intros Hs Hm Hu Hv. split.
  - unfold request_line_text in *. rewrite <- !app_assoc in Hs.
    eapply parse_request_line_ok; [exact Hs | | | ];
      apply token_split; assumption.
  - apply load_cstr_advance. exact Hs.
Qed.

Lemma parse_request_line_rendered_witness :
  load_cstr (cstring request_x) 0
  = Ok (request_line_text (str "GET") (str "/x") (str "HTTP/1.1")
          ++ header_lines [(str "Host", str "a.com")])
  /\ parse_request_line (cstring request_x) (Some 0) no_request_line
     = Ok (17, mk_request_line (Some (str "GET")) (Some (str "/x"))
                               (Some (str "HTTP/1.1")))
  /\ load_cstr (cstring request_x) 17 = Ok (str "Host: a.com" ++ CRLF).
Proof.
  split; [reflexivity|].
  apply (parse_request_line_rendered (cstring request_x) 0 no_request_line
           (str "GET") (str "/x") (str "HTTP/1.1")
           (header_lines [(str "Host", str "a.com")]) eq_refl);
    apply token_dec; reflexivity.
Defined.

(** A header line written from a name and a value parses back to them,
    whatever the slots held; the result is the length of the line and the
    cursor advanced by it is at the text that follows. *)
Theorem parse_header_line_rendered m p name value h rest :
  load_cstr m p = Ok (header_line h ++ rest) ->
  wf_header h ->
  parse_header_line m (Some p) name value
  = Ok (Z.of_nat (length (header_line h)), Some (fst h), Some (snd h))
  /\ 4 <= Z.of_nat (length (header_line h))
  /\ load_cstr m (p + Z.of_nat (length (header_line h))) = Ok rest.
Proof.
  intros Hs [Hn Hv]. split; [|split].
  - unfold header_line in *. rewrite <- !app_assoc in Hs.
    eapply parse_header_line_ok; [exact Hs | | ];
      apply token_split; assumption.
  - unfold header_line. rewrite !length_app. simpl. lia.
  - apply load_cstr_advance. exact Hs.
Qed.

Lemma parse_header_line_rendered_witness :
  load_cstr (cstring (str "Host: a.com" ++ CRLF ++ str "X: y" ++ CRLF)) 0
  = Ok (header_line (str "Host", str "a.com") ++ str "X: y" ++ CRLF)
  /\ parse_header_line
       (cstring (str "Host: a.com" ++ CRLF ++ str "X: y" ++ CRLF)) (Some 0)
       (Some (str "old")) None
     = Ok (13, Some (str "Host"), Some (str "a.com"))
  /\ 4 <= 13
  /\ load_cstr (cstring (str "Host: a.com" ++ CRLF ++ str "X: y" ++ CRLF)) 13
     = Ok (str "X: y" ++ CRLF).
Proof.
  split; [reflexivity|].
  apply (parse_header_line_rendered
           (cstring (str "Host: a.com" ++ CRLF ++ str "X: y" ++ CRLF)) 0
           (Some (str "old")) None (str "Host", str "a.com")
           (str "X: y" ++ CRLF) eq_refl).
  split; apply token_dec; reflexivity.
Defined.

(** A header line that has its [": "] but no ["\r\n"] after it is
    rejected with -1 after the name has been stored: the name slot holds
    the new name, the value slot is as it was. *)
Theorem parse_header_line_truncated m p s name value nm r :
  load_cstr m p = Ok s ->
  first_split (str ": ") s nm r -> absent CRLF r ->
  parse_header_line m (Some p) name value = Ok (-1, Some nm, value).
Proof.
  intros Hs H1 Ha.
  destruct (get_prefix_split _ _ _ _ _ _ Hs H1) as [G1 L1].
  unfold parse_header_line. rewrite G1. step.
  rewrite (get_prefix_absent _ _ _ _ L1 Ha). reflexivity.
Qed.

Lemma parse_header_line_truncated_witness :
  load_cstr (cstring (str "Host: a.com")) 0 = Ok (str "Host: a.com")
  /\ parse_header_line (cstring (str "Host: a.com")) (Some 0) None None
     = Ok (-1, Some (str "Host"), None).
Proof.
  split; [reflexivity|].
  apply (parse_header_line_truncated (cstring (str "Host: a.com")) 0
           (str "Host: a.com") None None (str "Host") (str "a.com") eq_refl).
  - apply strstr_Some_first_split; reflexivity.
  - apply strstr_None_absent. reflexivity.
Defined.

(** ** parse_cache_control *)

(** [parse_cache_control] leaves [*out_max_age] as it was on NULL, on a
    string without ["max-age="] and on a string that ends right after its
    first ["max-age="]; otherwise it stores the [atoi] of what follows the
    first ["max-age="] (0 when that does not start a number). *)
Theorem parse_cache_control_max_age m old :
  parse_cache_control m None old = Ok old
  /\ forall p s,
       load_cstr m p = Ok s ->
       (absent MAX_AGE s -> parse_cache_control m (Some p) old = Ok old)
       /\ (forall a, first_split MAX_AGE s a [] ->
                     parse_cache_control m (Some p) old = Ok old)
       /\ (forall a r, first_split MAX_AGE s a r -> r <> [] ->
                       parse_cache_control m (Some p) old = Ok (atoi r)
                       /\ (numeric_start r = false ->
                           parse_cache_control m (Some p) old = Ok 0)).
Proof.
  split; [reflexivity|].
  intros p s Hs. pose proof (strlen_cstr _ _ _ Hs) as Hn.
  split; [|split].
  - intros Ha. unfold parse_cache_control. rewrite Hs. step.
    rewrite (strstr_absent _ _ Ha). reflexivity.
  - intros a Hf. unfold parse_cache_control. rewrite Hs. step.
    rewrite (strstr_first_split _ _ _ _ Hf). cbv zeta. rewrite Hn. step.
    destruct Hf as [-> _]. rewrite !length_app.
    replace (_ <=? _) with true; [reflexivity|].
    symmetry. apply Z.leb_le. simpl. lia.
  - intros a r Hf Hr.
    assert (E : parse_cache_control m (Some p) old = Ok (atoi r)).
    { destruct (get_prefix_split _ _ _ _ _ _ Hs Hf) as [_ L].
      unfold parse_cache_control. rewrite Hs. step.
      rewrite (strstr_first_split _ _ _ _ Hf). cbv zeta. rewrite Hn. step.
      replace (_ <=? _) with false; [rewrite L; reflexivity|].
      symmetry. apply Z.leb_gt. destruct Hf as [-> _]. rewrite !length_app.
      destruct r; [congruence|]. simpl. lia. }
    split; [exact E|]. intros Hz. rewrite E, (atoi_non_numeric _ Hz).
    reflexivity.
Qed.

Lemma parse_cache_control_max_age_witness :
  load_cstr (cstring (str "public, max-age=3600")) 0
  = Ok (str "public, max-age=3600")
  /\ parse_cache_control (cstring (str "public, max-age=3600")) (Some 0) 7
     = Ok 3600.
Proof.
  split; [reflexivity|].
  refine (proj1 (proj2 (proj2 (proj2
    (parse_cache_control_max_age (cstring (str "public, max-age=3600")) 7)
    0 (str "public, max-age=3600") eq_refl))
    (str "public, ") (str "3600") _ _)).
  - apply strstr_Some_first_split; reflexivity.
  - discriminate.
Defined.

(** ** parse_status_line on lines that lack a delimiter *)

(** [parse_status_line] returns -1 only when the slot it tests is NULL.
    Without a first [" "] it returns -1 if the caller's version slot is
    NULL and otherwise goes on to read the local [status_code], which was
    never written.  With a first but no second [" "] it reads that local
    unwritten as well.  Without the final ["\r\n"] it returns -1, the
    version and status code stored, if the caller's phrase slot is NULL,
    and otherwise subtracts from a NULL cursor. *)
Theorem parse_status_line_failures m p s o :
  load_cstr m p = Ok s ->
  (absent SP s -> s_version o = None ->
   parse_status_line m (Some p) o = Ok (-1, o))
  /\ (absent SP s -> s_version o <> None ->
      parse_status_line m (Some p) o = Fault UninitRead)
  /\ (forall v r1,
        first_split SP s v r1 -> absent SP r1 ->
        parse_status_line m (Some p) o = Fault UninitRead)
  /\ (forall v c r1 r2,
        first_split SP s v r1 -> first_split SP r1 c r2 -> absent CRLF r2 ->
        (phrase o = None ->
         parse_status_line m (Some p) o
         = Ok (-1, mk_status_line (Some v) (atoi c) None))
        /\ (phrase o <> None ->
            parse_status_line m (Some p) o = Fault NullDeref)).
Proof.
  intros Hs. split; [|split; [|split]].
  - intros Ha Hv. unfold parse_status_line.
    rewrite (get_prefix_absent _ _ _ _ Hs Ha). step. rewrite Hv.
    destruct o as [ve sc ph]. simpl in Hv. subst ve. reflexivity.
  - intros Ha Hv. unfold parse_status_line.
    rewrite (get_prefix_absent _ _ _ _ Hs Ha). step.
    destruct (s_version o); [reflexivity | congruence].
  - intros v r1 H1 Ha.
    destruct (get_prefix_split _ _ _ _ _ _ Hs H1) as [G1 L1].
    unfold parse_status_line. rewrite G1. step.
    rewrite (get_prefix_absent _ _ _ _ L1 Ha). reflexivity.
  - intros v c r1 r2 H1 H2 Ha.
    destruct (get_prefix_split _ _ _ _ _ _ Hs H1) as [G1 L1].
    destruct (get_prefix_split _ _ _ _ _ _ L1 H2) as [G2 L2].
    split; intros Hp; unfold parse_status_line; rewrite G1; step;
      rewrite G2; step; rewrite (get_prefix_absent _ _ _ _ L2 Ha); step.
    + rewrite Hp. reflexivity.
    + destruct (phrase o); [reflexivity | congruence].
Qed.

Lemma parse_status_line_failures_witness :
  load_cstr (cstring (str "HTTP/1.1 200OK" ++ CRLF)) 0
  = Ok (str "HTTP/1.1 200OK" ++ CRLF)
  /\ parse_status_line (cstring (str "HTTP/1.1 200OK" ++ CRLF)) (Some 0)
       no_status_line
     = Fault UninitRead.
Proof.
  split; [reflexivity|].
  refine (proj1 (proj2 (proj2
    (parse_status_line_failures (cstring (str "HTTP/1.1 200OK" ++ CRLF)) 0
       (str "HTTP/1.1 200OK" ++ CRLF) no_status_line eq_refl)))
    (str "HTTP/1.1") (str "200OK" ++ CRLF) _ _).
  - apply strstr_Some_first_split; reflexivity.
  - apply strstr_None_absent. reflexivity.
Defined.

(** ** Head and body of a message *)

Lemma until_nul_length : forall l s,
  until_nul l = Some s -> (length s < length l)%nat.
Proof.
  induction l as [|c l IH]; intros s; simpl; [discriminate|].
  destruct (Ascii.eqb c NUL).
  - intros [= <-]. simpl. lia.
  - destruct (until_nul l) as [r|]; simpl; [|discriminate].
    intros [= <-]. specialize (IH r eq_refl). simpl. lia.
Qed.

Lemma load_cstr_length m p s :
  load_cstr m p = Ok s -> p + Z.of_nat (length s) < Z.of_nat (length m).
Proof.
  intros Hs. pose proof (load_cstr_nonneg _ _ _ Hs) as Hp.
  unfold load_cstr in Hs. destruct (p <? 0); [discriminate|].
  destruct (until_nul _) as [r|] eqn:E; [|discriminate].
  injection Hs as ->. apply until_nul_length in E.
  rewrite length_skipn in E. lia.
Qed.

Lemma until_nul_terminated : forall l, exists s, until_nul (l ++ [NUL]) = Some s.
Proof.
  induction l as [|c l [s IH]]; simpl.
  - exists []. reflexivity.
  - destruct (Ascii.eqb c NUL); [exists []; reflexivity|].
    rewrite IH. exists (c :: s). reflexivity.
Qed.

(** The arithmetic of [parse_body_head] when the separator that [strstr]
    finds ends within the declared length. *)
Lemma parse_body_head_found m p n o s k :
  load_cstr m p = Ok s -> strstr s CRLFCRLF = Some k ->
  is_int n -> Z.of_nat k + 4 <= n -> p + n <= Z.of_nat (length m) ->
  parse_body_head m (Some p) n o
  = Ok (mk_body_head
          (Some (firstn (k + 2) (skipn (Z.to_nat p) m)))
          (Z.of_nat k + 2)
          (Some (firstn (Z.to_nat n - (k + 4))
                        (skipn (Z.to_nat p + (k + 4)) m)))
          (n - (Z.of_nat k + 4))).
Proof.
  intros Hs Hk Hn Hkn Hl.
  pose proof (load_cstr_nonneg _ _ _ Hs) as Hp.
  unfold is_int, INT_MAX in Hn.
  unfold parse_body_head. rewrite Hs. step. rewrite Hk. cbv zeta.
  replace (p + Z.of_nat k + Z.of_nat (length CRLF) - p)
    with (Z.of_nat k + 2) by (simpl; lia).
  rewrite (to_uint_small (Z.of_nat k + 2)) by lia.
  rewrite malloc_copy_ok by (unfold INT_MAX; lia). step.
  replace (n - (Z.of_nat k + 2) - Z.of_nat (length CRLF))
    with (n - (Z.of_nat k + 4)) by (simpl; lia).
  rewrite (to_uint_small (n - _)) by lia.
  rewrite malloc_copy_ok by (unfold INT_MAX; simpl; lia). step.
  rewrite !to_int_small by (unfold INT_MAX; lia).
  cbn [out_head out_head_len].
  do 2 f_equal.
  - do 2 f_equal. lia.
  - f_equal. f_equal; [lia|]. f_equal. simpl. lia.
Qed.

(** A message written as a head without NUL (ending at its first
    ["\r\n\r\n"]), the blank line and any body, bytes of value 0
    included, is split back into that head with its own ["\r\n"] and that
    body, with their lengths. *)
Theorem parse_body_head_concat pre body o :
  token CRLFCRLF pre -> ~ In NUL pre ->
  Z.of_nat (length (pre ++ CRLFCRLF ++ body)) <= INT_MAX ->
  parse_body_head (cstring (pre ++ CRLFCRLF ++ body)) (Some 0)
    (Z.of_nat (length (pre ++ CRLFCRLF ++ body))) o
  = Ok (mk_body_head (Some (pre ++ CRLF)) (Z.of_nat (length pre) + 2)
                     (Some body) (Z.of_nat (length body))).
Proof.
  intros Ht Hnul Hlen.
  destruct (until_nul_terminated body) as [s' Hs'].
  assert (Hs : load_cstr (cstring (pre ++ CRLFCRLF ++ body)) 0
               = Ok (pre ++ CRLFCRLF ++ s')).
  { unfold load_cstr, cstring. change (Z.to_nat 0) with 0%nat.
    rewrite skipn_O, <- !app_assoc.
    rewrite until_nul_skip by exact Hnul.
    rewrite (until_nul_skip CRLFCRLF)
      by (simpl; intros [H|[H|[H|[H|[]]]]]; discriminate H).
    rewrite Hs'. reflexivity. }
  pose proof (strstr_first_split _ _ _ _ (token_split _ _ s' Ht)) as Hk.
  rewrite (parse_body_head_found _ _ _ o _ _ Hs Hk).
  - rewrite Nat2Z.id. unfold cstring. change (Z.to_nat 0) with 0%nat.
    rewrite Nat.add_0_l, skipn_O. do 2 f_equal.
    + f_equal. rewrite <- !app_assoc. rewrite firstn_app_2. reflexivity.
    + f_equal.
      replace ((pre ++ CRLFCRLF ++ body) ++ [NUL])
        with ((pre ++ CRLFCRLF) ++ body ++ [NUL])
        by (rewrite <- !app_assoc; reflexivity).
      replace (length pre + 4)%nat with (length (pre ++ CRLFCRLF))
        by (rewrite length_app; reflexivity).
      rewrite skipn_app, skipn_all, Nat.sub_diag, skipn_O, app_nil_l.
      replace (length (pre ++ CRLFCRLF ++ body) - length (pre ++ CRLFCRLF))%nat
        with (length body + 0)%nat by (rewrite !length_app; lia).
      rewrite firstn_app_2. simpl. apply app_nil_r.
    + rewrite !length_app. simpl. lia.
  - unfold is_int. unfold INT_MAX in *. lia.
  - rewrite !length_app. simpl. lia.
  - unfold cstring. rewrite !length_app. simpl. lia.
Qed.

Lemma parse_body_head_concat_witness :
  token CRLFCRLF (str "GET /x HTTP/1.1" ++ CRLF ++ str "Host: a.com")
  /\ ~ In NUL (str "GET /x HTTP/1.1" ++ CRLF ++ str "Host: a.com")
  /\ parse_body_head
       (cstring ((str "GET /x HTTP/1.1" ++ CRLF ++ str "Host: a.com")
                   ++ CRLFCRLF ++ str "b" ++ [NUL] ++ str "c"))
       (Some 0) 35 no_body_head
     = Ok (mk_body_head (Some request_x) 30
                        (Some (str "b" ++ [NUL] ++ str "c")) 3).
Proof.
  assert (Ht : token CRLFCRLF
                 (str "GET /x HTTP/1.1" ++ CRLF ++ str "Host: a.com"))
    by (apply token_dec; reflexivity).
  assert (Hn : ~ In NUL (str "GET /x HTTP/1.1" ++ CRLF ++ str "Host: a.com"))
    by (apply no_nul_dec; reflexivity).
  split; [exact Ht|]. split; [exact Hn|].
  apply (parse_body_head_concat
           (str "GET /x HTTP/1.1" ++ CRLF ++ str "Host: a.com")
           (str "b" ++ [NUL] ++ str "c") no_body_head Ht Hn).
  unfold INT_MAX. simpl. lia.
Defined.

(** When the separator that the scan finds ends beyond the declared
    length [n], the body length [n - size - 2] wraps in [unsigned] and the
    copy of the body leaves the object (any object of at most [INT_MAX]
    bytes). *)
Theorem parse_body_head_separator_past_n m p n o s pre post :
  is_int n -> Z.of_nat (length m) <= INT_MAX ->
  load_cstr m p = Ok s -> first_split CRLFCRLF s pre post ->
  n < Z.of_nat (length pre) + 4 ->
  parse_body_head m (Some p) n o = Fault OutOfBounds.
Proof.
  intros Hn Hm Hs Hf Hlt.
  pose proof (load_cstr_nonneg _ _ _ Hs) as Hp.
  pose proof (load_cstr_length _ _ _ Hs) as Hl.
  pose proof (strstr_first_split _ _ _ _ Hf) as Hk.
  destruct Hf as [Heq _].
  assert (Hlen : Z.of_nat (length pre) + 4 <= Z.of_nat (length s)).
  { rewrite Heq, !length_app. simpl. lia. }
  unfold is_int, INT_MAX in *.
  unfold parse_body_head. rewrite Hs. step. rewrite Hk. cbv zeta.
  replace (p + Z.of_nat (length pre) + Z.of_nat (length CRLF) - p)
    with (Z.of_nat (length pre) + 2) by (simpl; lia).
  rewrite (to_uint_small (Z.of_nat (length pre) + 2)) by lia.
  rewrite malloc_copy_ok by (unfold INT_MAX; lia). step.
  replace (n - (Z.of_nat (length pre) + 2) - Z.of_nat (length CRLF))
    with (n - (Z.of_nat (length pre) + 4)) by (simpl; lia).
  assert (Hw : to_uint (n - (Z.of_nat (length pre) + 4))
               = n - (Z.of_nat (length pre) + 4) + 2 ^ 32).
  { unfold to_uint. symmetry.
    apply (Z.mod_unique _ _ (-1)); lia. }
  rewrite Hw. unfold malloc_copy, load_bytes.
  destruct (to_uint _ <? _); [reflexivity|].
  replace (Z.of_nat (length m) <? _) with true
    by (symmetry; apply Z.ltb_lt; simpl; lia).
  rewrite orb_true_r. reflexivity.
Qed.

Lemma parse_body_head_separator_past_n_witness :
  is_int 3
  /\ load_cstr object_stale_tail 0 = Ok (str "a" ++ CRLFCRLF)
  /\ 3 < Z.of_nat (length (str "a")) + 4
  /\ parse_body_head object_stale_tail (Some 0) 3
       (mk_body_head (Some (str "old")) 3 None 0)
     = Fault OutOfBounds.
Proof.
  assert (Hi : is_int 3) by (unfold is_int, INT_MAX; lia).
  assert (Hl : 3 < Z.of_nat (length (str "a")) + 4) by (simpl; lia).
  split; [exact Hi|]. split; [reflexivity|]. split; [exact Hl|].
  apply (parse_body_head_separator_past_n object_stale_tail 0 3 _
           (str "a" ++ CRLFCRLF) (str "a") [] Hi).
  - unfold INT_MAX. simpl. lia.
  - reflexivity.
  - apply strstr_Some_first_split; reflexivity.
  - exact Hl.
Defined.

(** ** The header loops on well-formed and on malformed lines *)

Lemma request_headers_S m fuel end_ st name value h :
  request_headers m (S fuel) end_ st name value h
  = if st <? end_ then
      match parse_header_line m (Some st) name value with
      | Fault f => Some (Fault f)
      | Ok (len, name, value) =>
          request_headers m fuel end_ (st + len) None None
            (if is_name name "Host" then value else h)
      end
    else Some (Ok h).
Proof. reflexivity. Qed.

Lemma response_headers_S m fuel end_ st name value cl cc :
  response_headers m (S fuel) end_ st name value cl cc
  = if st <? end_ then
      match parse_header_line m (Some st) name value with
      | Fault f => Some (Fault f)
      | Ok (len, name, value) =>
          if is_name name "Content-Length" then
            match value with
            | None => Some (Fault NullDeref)
            | Some v =>
                response_headers m fuel end_ (st + len) None None (atoi v) cc
            end
          else if is_name name "Cache-Control" then
            response_headers m fuel end_ (st + len) None None cl value
          else
            response_headers m fuel end_ (st + len) None None cl cc
      end
    else Some (Ok (cl, cc)).
Proof. reflexivity. Qed.

Lemma header_line_parses m st h rest :
  load_cstr m st = Ok (header_line h ++ rest) -> wf_header h ->
  parse_header_line m (Some st) None None
  = Ok (Z.of_nat (length (header_line h)), Some (fst h), Some (snd h)).
Proof.
  intros Hs [Hn Hv]. unfold header_line in *. rewrite <- !app_assoc in Hs.
  eapply parse_header_line_ok; [exact Hs | | ]; apply token_split; assumption.
Qed.

Lemma header_line_length h : 4 <= Z.of_nat (length (header_line h)).
Proof. unfold header_line. rewrite !length_app. simpl. lia. Qed.

Lemma request_headers_wf m : forall hs st h fuel,
  load_cstr m st = Ok (header_lines hs) -> Forall wf_header hs ->
  (length hs < fuel)%nat ->
  request_headers m fuel (st + Z.of_nat (length (header_lines hs))) st
    None None h
  = Some (Ok (fold_left fold_host hs h)).
Proof.
  induction hs as [|x hs IH]; intros st h fuel Hs Hwf Hf;
    (destruct fuel as [|fuel]; [simpl in Hf; lia|]);
    rewrite request_headers_S.
  - simpl. rewrite Z.add_0_r, Z.ltb_irrefl. reflexivity.
  - inversion Hwf as [|? ? Hx Hrest]; subst.
    cbn [header_lines] in *. pose proof (header_line_length x) as H4.
    replace (st <? _) with true
      by (symmetry; apply Z.ltb_lt; rewrite length_app; lia).
    rewrite (header_line_parses _ _ _ _ Hs Hx).
    rewrite length_app, Nat2Z.inj_add, Z.add_assoc.
    apply IH; [apply load_cstr_advance; exact Hs | exact Hrest |].
    simpl in Hf. lia.
Qed.

Lemma response_headers_wf m : forall hs st acc fuel,
  load_cstr m st = Ok (header_lines hs) -> Forall wf_header hs ->
  (length hs < fuel)%nat ->
  response_headers m fuel (st + Z.of_nat (length (header_lines hs))) st
    None None (fst acc) (snd acc)
  = Some (Ok (fold_left fold_response hs acc)).
Proof.
  induction hs as [|x hs IH]; intros st acc fuel Hs Hwf Hf;
    (destruct fuel as [|fuel]; [simpl in Hf; lia|]);
    rewrite response_headers_S.
  - simpl. rewrite Z.add_0_r, Z.ltb_irrefl. destruct acc; reflexivity.
  - inversion Hwf as [|? ? Hx Hrest]; subst.
    cbn [header_lines] in *. pose proof (header_line_length x) as H4.
    replace (st <? _) with true
      by (symmetry; apply Z.ltb_lt; rewrite length_app; lia).
    rewrite (header_line_parses _ _ _ _ Hs Hx).
    rewrite length_app, Nat2Z.inj_add, Z.add_assoc.
    assert (Hs' := load_cstr_advance _ _ _ _ Hs).
    assert (Hf' : (length hs < fuel)%nat) by (simpl in Hf; lia).
    cbn [fold_left]. unfold fold_response at 2. unfold is_name.
    destruct (bytes_eqb (fst x) (str "Content-Length")).
    + apply (IH _ (atoi (snd x), snd acc) _ Hs' Hrest Hf').
    + destruct (bytes_eqb (fst x) (str "Cache-Control")).
      * apply (IH _ (fst acc, Some (snd x)) _ Hs' Hrest Hf').
      * apply (IH _ acc _ Hs' Hrest Hf').
Qed.

Lemma request_line_text_parses m p o me u v rest :
  load_cstr m p = Ok (request_line_text me u v ++ rest) ->
  token SP me -> token SP u -> token CRLF v ->
  parse_request_line m (Some p) o
  = Ok (Z.of_nat (length (request_line_text me u v)),
        mk_request_line (Some me) (Some u) (Some v)).
Proof.
  intros Hs Hm Hu Hv.
  unfold request_line_text in *. rewrite <- !app_assoc in Hs.
  eapply parse_request_line_ok; [exact Hs | | | ];
    apply token_split; assumption.
Qed.

(** On a head written as a request line of three tokens followed by
    well-formed header lines, [parse_request_head] returns once the loop
    has one iteration per header line and one more: the request line
    fields are the tokens, and the host is the value of the last header
    named exactly ["Host"], or the caller's value when there is none. *)
Theorem parse_request_head_well_formed m p o me u v hs fuel :
  load_cstr m p = Ok (request_line_text me u v ++ header_lines hs) ->
  token SP me -> token SP u -> token CRLF v ->
  Forall wf_header hs ->
  (length hs < fuel)%nat ->
  parse_request_head m fuel (Some p) o
  = Some (Ok (mk_request_head
                (mk_request_line (Some me) (Some u) (Some v))
                (fold_left fold_host hs (host o)))).
Proof.
  intros Hs Hm Hu Hv Hwf Hf. unfold parse_request_head.
  rewrite (strlen_cstr _ _ _ Hs).
  rewrite (request_line_text_parses _ _ (req_line o) _ _ _ _ Hs Hm Hu Hv).
  rewrite length_app, Nat2Z.inj_add, Z.add_assoc.
  rewrite (request_headers_wf m hs _ (host o) fuel
             (load_cstr_advance _ _ _ _ Hs) Hwf Hf).
  reflexivity.
Qed.

Lemma parse_request_head_well_formed_witness :
  load_cstr
    (cstring request_head_x) 0
  = Ok (request_line_text (str "GET") (str "/x") (str "HTTP/1.1")
          ++ header_lines headers_x)
  /\ Forall wf_header headers_x
  /\ parse_request_head
       (cstring request_head_x) 4 (Some 0) no_request_head
     = Some (Ok (mk_request_head
                   (mk_request_line (Some (str "GET")) (Some (str "/x"))
                                    (Some (str "HTTP/1.1")))
                   (Some (str "b.org:81")))).
Proof.
  assert (Hwf : Forall wf_header headers_x)
    by (repeat constructor; apply token_dec; reflexivity).
  split; [reflexivity|]. split; [exact Hwf|].
  apply (parse_request_head_well_formed (cstring request_head_x) 0
           no_request_head
           (str "GET") (str "/x") (str "HTTP/1.1") headers_x 4 eq_refl);
    try (apply token_dec; reflexivity).
  - exact Hwf.
  - simpl. lia.
Defined.

(** On a head written as a status line of three tokens followed by
    well-formed header lines, [parse_response_head] returns once the loop
    has one iteration per header line and one more: the status code is the
    [atoi] of the second token, the content length is the [atoi] of the
    value of the last header named ["Content-Length"], the cache control is
    the value of the last header named ["Cache-Control"], and a slot with
    no such header keeps the caller's value. *)
Theorem parse_response_head_well_formed m p o v c ph hs fuel :
  load_cstr m p = Ok (status_line_text v c ph ++ header_lines hs) ->
  token SP v -> token SP c -> token CRLF ph ->
  Forall wf_header hs ->
  (length hs < fuel)%nat ->
  parse_response_head m fuel (Some p) o
  = Some (Ok (mk_response_head
                (mk_status_line (Some v) (atoi c) (Some ph))
                (fst (fold_left fold_response hs
                        (content_length o, cache_control o)))
                (snd (fold_left fold_response hs
                        (content_length o, cache_control o))))).
Proof.
  intros Hs Hv Hc Hph Hwf Hf. unfold parse_response_head.
  rewrite (strlen_cstr _ _ _ Hs).
  assert (E : parse_status_line m (Some p) (st_line o)
              = Ok (Z.of_nat (length (status_line_text v c ph)),
                    mk_status_line (Some v) (atoi c) (Some ph))).
  { unfold status_line_text in *. rewrite <- !app_assoc in Hs.
    pose proof (token_split _ _ (c ++ SP ++ ph ++ CRLF ++ header_lines hs) Hv)
      as H1.
    pose proof (token_split _ _ (ph ++ CRLF ++ header_lines hs) Hc) as H2.
    pose proof (token_split _ _ (header_lines hs) Hph) as H3.
    destruct (get_prefix_split _ _ _ _ _ _ Hs H1) as [G1 L1].
    destruct (get_prefix_split _ _ _ _ _ _ L1 H2) as [G2 L2].
    destruct (get_prefix_split _ _ _ _ _ _ L2 H3) as [G3 _].
    unfold parse_status_line.
    rewrite G1. step. rewrite G2. step. rewrite G3. step.
    do 2 f_equal. rewrite !length_app. simpl. lia. }
  rewrite E. rewrite length_app, Nat2Z.inj_add, Z.add_assoc.
  pose proof (response_headers_wf m hs _ (content_length o, cache_control o)
                fuel (load_cstr_advance _ _ _ _ Hs) Hwf Hf) as R.
  cbn [fst snd] in R. rewrite R.
  destruct (fold_left _ _ _). reflexivity.
Qed.

Lemma parse_response_head_well_formed_witness :
  load_cstr
    (cstring response_head_x) 0
  = Ok (status_line_text (str "HTTP/1.1") (str "200") (str "OK")
          ++ header_lines response_headers_x)
  /\ Forall wf_header response_headers_x
  /\ parse_response_head
       (cstring response_head_x) 4 (Some 0)
       no_response_head
     = Some (Ok (mk_response_head
                   (mk_status_line (Some (str "HTTP/1.1")) 200
                                   (Some (str "OK")))
                   42 (Some (str "public, max-age=3600")))).
Proof.
  assert (Hwf : Forall wf_header response_headers_x)
    by (repeat constructor; apply token_dec; reflexivity).
  split; [reflexivity|]. split; [exact Hwf|].
  apply (parse_response_head_well_formed (cstring response_head_x) 0
           no_response_head
           (str "HTTP/1.1") (str "200") (str "OK") response_headers_x 4
           eq_refl);
    try (apply token_dec; reflexivity).
  - exact Hwf.
  - simpl. lia.
Defined.

(** At a line with no [": "] in the rest of the head, one iteration of
    either header loop changes no output and leaves the cursor one byte
    before where it was. *)
Theorem header_loops_step_back m fuel end_ st s :
  st < end_ -> load_cstr m st = Ok s -> absent (str ": ") s ->
  (forall h,
     request_headers m (S fuel) end_ st None None h
     = request_headers m fuel end_ (st - 1) None None h)
  /\ (forall cl cc,
        response_headers m (S fuel) end_ st None None cl cc
        = response_headers m fuel end_ (st - 1) None None cl cc).
Proof.
  intros Hlt Hs Ha.
  assert (Ht : (st <? end_) = true) by (apply Z.ltb_lt; exact Hlt).
  split; intros.
  - rewrite request_headers_S, Ht, (parse_header_line_absent _ _ _ _ _ Hs Ha).
    reflexivity.
  - rewrite response_headers_S, Ht, (parse_header_line_absent _ _ _ _ _ Hs Ha).
    reflexivity.
Qed.

Lemma header_loops_step_back_witness :
  22 < 27
  /\ load_cstr (cstring request_bad_header) 22 = Ok (str "bad" ++ CRLF)
  /\ absent (str ": ") (str "bad" ++ CRLF)
  /\ request_headers (cstring request_bad_header) 1 27 22 None None None
     = request_headers (cstring request_bad_header) 0 27 (22 - 1)
         None None None.
Proof.
  assert (Hl : 22 < 27) by lia.
  assert (Ha : absent (str ": ") (str "bad" ++ CRLF))
    by (apply strstr_None_absent; reflexivity).
  split; [exact Hl|]. split; [reflexivity|]. split; [exact Ha|].
  exact (proj1 (header_loops_step_back (cstring request_bad_header) 0 27 22
                  (str "bad" ++ CRLF) Hl eq_refl Ha) None).
Defined.



(** A line named ["Content-Length"] with no ["\r\n"] after its value makes
    the response loop call [atoi] on the NULL value. *)
Theorem response_loop_truncated_content_length m fuel end_ st s r cl cc :
  st < end_ -> load_cstr m st = Ok s ->
  first_split (str ": ") s (str "Content-Length") r -> absent CRLF r ->
  response_headers m (S fuel) end_ st None None cl cc
  = Some (Fault NullDeref).
Proof.
  intros Hlt Hs Hf Ha.
  assert (Ht : (st <? end_) = true) by (apply Z.ltb_lt; exact Hlt).
  destruct (get_prefix_split _ _ _ _ _ _ Hs Hf) as [G1 L1].
  rewrite response_headers_S, Ht. unfold parse_header_line.
  rewrite G1. step. rewrite (get_prefix_absent _ _ _ _ L1 Ha). reflexivity.
Qed.

Lemma response_loop_truncated_content_length_witness :
  0 < 18
  /\ load_cstr (cstring (str "Content-Length: 42")) 0
     = Ok (str "Content-Length: 42")
  /\ response_headers (cstring (str "Content-Length: 42")) 1 18 0 None None
       0 None
     = Some (Fault NullDeref).
Proof.
  assert (Hl : 0 < 18) by lia.
  split; [exact Hl|]. split; [reflexivity|].
  apply (response_loop_truncated_content_length
           (cstring (str "Content-Length: 42")) 0 18 0
           (str "Content-Length: 42") (str "42") 0 None Hl eq_refl).
  - apply strstr_Some_first_split; reflexivity.
  - apply strstr_None_absent. reflexivity.
Defined.

Lemma fold_host_other : forall hs h0,
  Forall (fun h => fst h <> str "Host") hs -> fold_left fold_host hs h0 = h0.
Proof.
  induction hs as [|x hs IH]; intros h0 Hn; [reflexivity|].
  inversion Hn as [|? ? Hx Hrest]; subst. simpl.
  unfold fold_host at 2. unfold bytes_eqb.
  destruct (list_eq_dec ascii_dec (fst x) (str "Host")); [contradiction|].
  apply IH. exact Hrest.
Qed.

(** The match on the header name is exact: on a well-formed head in which
    no header is named ["Host"] byte for byte (["host"] is another name),
    the host slot keeps the caller's value. *)
Theorem parse_request_head_no_host m p o me u v hs fuel :
  load_cstr m p = Ok (request_line_text me u v ++ header_lines hs) ->
  token SP me -> token SP u -> token CRLF v ->
  Forall wf_header hs ->
  Forall (fun h => fst h <> str "Host") hs ->
  (length hs < fuel)%nat ->
  parse_request_head m fuel (Some p) o
  = Some (Ok (mk_request_head
                (mk_request_line (Some me) (Some u) (Some v)) (host o))).
Proof.
  intros Hs Hm Hu Hv Hwf Hn Hf. unfold parse_request_head.
  rewrite (strlen_cstr _ _ _ Hs).
  rewrite (request_line_text_parses _ _ (req_line o) _ _ _ _ Hs Hm Hu Hv).
  rewrite length_app, Nat2Z.inj_add, Z.add_assoc.
  rewrite (request_headers_wf m hs _ (host o) fuel
             (load_cstr_advance _ _ _ _ Hs) Hwf Hf).
  rewrite (fold_host_other _ _ Hn). reflexivity.
Qed.

Lemma parse_request_head_no_host_witness :
  load_cstr (cstring request_lower_host) 0 = Ok request_lower_host
  /\ parse_request_head (cstring request_lower_host) 2 (Some 0)
       no_request_head
     = Some (Ok (mk_request_head
                   (mk_request_line (Some (str "GET")) (Some (str "/"))
                                    (Some (str "HTTP/1.0")))
                   None)).
Proof.
  split; [reflexivity|].
  apply (parse_request_head_no_host (cstring request_lower_host) 0
           no_request_head (str "GET") (str "/") (str "HTTP/1.0")
           [(str "host", str "a.com")] 2 eq_refl);
    try (apply token_dec; reflexivity).
  - repeat constructor; apply token_dec; reflexivity.
  - repeat constructor. discriminate.
  - simpl. lia.
Defined.

(** ** Bounds on what the parsers return *)

Lemma get_prefix_cases m p s d :
  load_cstr m p = Ok s ->
  get_prefix m (Some p) d = Ok None
  \/ exists pre post,
       s = pre ++ d ++ post
       /\ get_prefix m (Some p) d
          = Ok (Some (p + Z.of_nat (length pre) + Z.of_nat (length d), pre))
       /\ load_cstr m (p + Z.of_nat (length pre) + Z.of_nat (length d))
          = Ok post.
Proof.
  intros Hs. destruct (strstr s d) as [k|] eqn:E.
  - right. destruct (strstr_Some _ _ _ E) as (Ho & Hl & Hf).
    pose proof (occurs_at_split _ _ _ Ho Hl) as Heq.
    assert (Hsp : first_split d s (firstn k s)
                    (skipn (length d) (skipn k s))).
    { split; [exact Heq|]. rewrite length_firstn, Nat.min_l by exact Hl.
      exact Hf. }
    destruct (get_prefix_split _ _ _ _ _ _ Hs Hsp) as [G L].
    exists (firstn k s), (skipn (length d) (skipn k s)).
    split; [exact Heq|]. split; [exact G | exact L].
  - left. unfold get_prefix. rewrite Hs. step. rewrite E. reflexivity.
Qed.

(** On a C string, [parse_request_line] and [parse_header_line] never
    fault, and what they return is -1 or a length of at least 4 that is
    within the string. *)
Theorem line_parsers_result_range m p s :
  load_cstr m p = Ok s ->
  (forall o, exists len o',
     parse_request_line m (Some p) o = Ok (len, o')
     /\ (len = -1 \/ 4 <= len <= Z.of_nat (length s)))
  /\ (forall name value, exists len name' value',
        parse_header_line m (Some p) name value = Ok (len, name', value')
        /\ (len = -1 \/ 4 <= len <= Z.of_nat (length s))).
Proof.
  intros Hs. split.
  - intros o. unfold parse_request_line.
    destruct (get_prefix_cases _ _ _ SP Hs) as [G1|(a & r1 & E1 & G1 & L1)];
      rewrite G1; step; [eauto|].
    destruct (get_prefix_cases _ _ _ SP L1) as [G2|(b & r2 & E2 & G2 & L2)];
      rewrite G2; step; [eauto|].
    destruct (get_prefix_cases _ _ _ CRLF L2) as [G3|(c & r3 & E3 & G3 & L3)];
      rewrite G3; step; [eauto|].
    eexists _, _. split; [reflexivity|]. right.
    subst s r1 r2. rewrite !length_app. simpl. lia.
  - intros name value. unfold parse_header_line.
    destruct (get_prefix_cases _ _ _ (str ": ") Hs)
      as [G1|(a & r1 & E1 & G1 & L1)]; rewrite G1; step; [eauto 6|].
    destruct (get_prefix_cases _ _ _ CRLF L1) as [G2|(b & r2 & E2 & G2 & L2)];
      rewrite G2; step; [eauto 6|].
    eexists _, _, _. split; [reflexivity|]. right.
    subst s r1. rewrite !length_app. simpl. lia.
Qed.

Lemma line_parsers_result_range_witness :
  load_cstr (cstring request_x) 0 = Ok request_x
  /\ exists len name' value',
       parse_header_line (cstring request_x) (Some 0) None None
       = Ok (len, name', value')
       /\ (len = -1 \/ 4 <= len <= Z.of_nat (length request_x)).
Proof.
  split; [reflexivity|].
  exact (proj2 (line_parsers_result_range (cstring request_x) 0 request_x
                  eq_refl) None None).
Defined.

(** When the separator that the scan finds ends within the declared
    length, the head ends with the ["\r\n"] of its last line, the lengths
    stored are the lengths of the two copies, and together with the blank
    line they make up [n]. *)
Theorem parse_body_head_lengths m p n o s pre post :
  is_int n -> p + n <= Z.of_nat (length m) ->
  load_cstr m p = Ok s -> first_split CRLFCRLF s pre post ->
  Z.of_nat (length pre) + 4 <= n ->
  exists body,
    parse_body_head m (Some p) n o
    = Ok (mk_body_head (Some (pre ++ CRLF))
                       (Z.of_nat (length (pre ++ CRLF)))
                       (Some body) (Z.of_nat (length body)))
    /\ Z.of_nat (length (pre ++ CRLF)) + 2 + Z.of_nat (length body) = n.
Proof.
  intros Hn Hl Hs Hf Hk.
  pose proof (load_cstr_nonneg _ _ _ Hs) as Hp.
  pose proof (strstr_first_split _ _ _ _ Hf) as Hst.
  rewrite (parse_body_head_found _ _ _ o _ _ Hs Hst Hn Hk Hl).
  eexists. split.
  - f_equal. f_equal.
    + f_equal. unfold load_cstr in Hs.
      destruct (p <? 0); [discriminate|].
      destruct (until_nul _) as [r|] eqn:E; [|discriminate].
      injection Hs as Hrs. subst r.
      assert (Hpre : forall l r', until_nul l = Some r' ->
                                  firstn (length r') l = r').
      { clear. induction l as [|c l IH]; intros r'; simpl; [discriminate|].
        destruct (Ascii.eqb c NUL); [intros [= <-]; reflexivity|].
        destruct (until_nul l) as [q|]; simpl; [|discriminate].
        intros [= <-]. simpl. f_equal. apply IH. reflexivity. }
      specialize (Hpre _ _ E). destruct Hf as [Heq _]. subst s.
      apply (f_equal (firstn (length pre + 2))) in Hpre.
      rewrite firstn_firstn, Nat.min_l in Hpre
        by (rewrite !length_app; simpl; lia).
      rewrite Hpre. change CRLFCRLF with (CRLF ++ CRLF).
      rewrite <- app_assoc, firstn_app_2. reflexivity.
    + rewrite length_app. simpl. lia.
    + rewrite length_firstn, length_skipn, Nat.min_l by lia.
      unfold is_int, INT_MAX in Hn. lia.
  - rewrite length_firstn, length_skipn, Nat.min_l by lia.
    rewrite length_app. simpl. lia.
Qed.

Lemma parse_body_head_lengths_witness :
  is_int 36
  /\ load_cstr (cstring message_x) 0 = Ok message_x
  /\ exists body,
       parse_body_head (cstring message_x) (Some 0) 36 no_body_head
       = Ok (mk_body_head
               (Some ((str "GET /x HTTP/1.1" ++ CRLF ++ str "Host: a.com")
                        ++ CRLF))
               (Z.of_nat
                  (length ((str "GET /x HTTP/1.1" ++ CRLF
                              ++ str "Host: a.com") ++ CRLF)))
               (Some body) (Z.of_nat (length body)))
       /\ Z.of_nat (length ((str "GET /x HTTP/1.1" ++ CRLF
                               ++ str "Host: a.com") ++ CRLF))
          + 2 + Z.of_nat (length body) = 36.
Proof.
  assert (Hi : is_int 36) by (unfold is_int, INT_MAX; lia).
  split; [exact Hi|]. split; [reflexivity|].
  apply (parse_body_head_lengths (cstring message_x) 0 36 no_body_head
           message_x (str "GET /x HTTP/1.1" ++ CRLF ++ str "Host: a.com")
           (str "body") Hi).
  - simpl. lia.
  - reflexivity.
  - apply strstr_Some_first_split; reflexivity.
  - simpl. lia.
Defined.
